(** * socketIO_client.transports: packet codec, ack registry, framing, negotiation

    A shallow embedding of [socketIO_client/transports.py] (Python 2).

    - A Python [str] is a byte string: it is modelled by [string], whose
      characters are the 8-bit [ascii].  A [unicode] object is the list of its
      code points, as on a build of Python with 4-byte characters, where
      [len] counts code points.
    - A Python [int] is unbounded: it is modelled by [Z]; [str(n)] is the
      decimal rendering [str_int].
    - The dict [_callback_by_packet_id] is a [gmap string callback].
    - Methods of [_AbstractTransport] mutate [self]: they are functions in a
      state-and-exception monad over the record [transport].  The abstract
      method [send], supplied by each concrete class, is a parameter.
    - A generator is modelled by the finite list of the values it yields.
    - Calls to [_log] have no effect on any value and are left out.
    - The development covers [send_packet], [connect], [send_heartbeat],
      [noop], [message], [ack], [disconnect], [recv_packet], the ack
      registry, [_negotiate_transport] with the three constructors,
      [_yield_text_from_framed_data], [_get_response], [recv] of the two
      polling transports, [close] and [connected], and [send] as far as its
      outcome goes.  Socket and HTTP calls appear through their outcomes.
      [emit] is left out: its text depends on the order in which a dict is
      iterated. *)

From Stdlib Require Import ZArith NArith String Ascii List Lia.
From Stdlib Require Import DecimalString DecimalPos DecimalZ.
From stdpp Require Import gmap strings list.

Open Scope string_scope.

#[local] Set Warnings "-register-all".
#[local] Arguments String.append _ _ : simpl nomatch.

(** ** Python string primitives *)

(** [str(n)] for an [int]. *)
Definition str_int (n : Z) : string := NilZero.string_of_int (Z.to_int n).

(** [sep.join(parts)]. *)
Fixpoint join (sep : string) (parts : list string) : string :=
  match parts with
  | [] => ""
  | [x] => x
  | x :: rest => x +:+ sep +:+ join sep rest
  end.

(** [c in s] for a one-character [c]. *)
Fixpoint has_char (c : ascii) (s : string) : bool :=
  match s with
  | EmptyString => false
  | String a s' => if Ascii.eqb a c then true else has_char c s'
  end.

(** The [maxsplit] argument of [split]: [None] is "no limit". *)
Definition may_split (maxsplit : option nat) : bool :=
  match maxsplit with
  | Some O => false
  | _ => true
  end.

Definition one_split_less (maxsplit : option nat) : option nat :=
  match maxsplit with
  | Some (S k) => Some k
  | other => other
  end.

(** [s.split(sep, maxsplit)] for a non-empty [sep]: the text is cut at the
    leftmost occurrences of [sep], which do not overlap, at most [maxsplit]
    times.  [skip] counts the characters of a separator that has just been
    recognised and that are still to be passed over. *)
Fixpoint split_from (sep : string) (skip : nat) (maxsplit : option nat)
    (s : string) : list string :=
  match s with
  | EmptyString => [""]
  | String c s' =>
      match skip with
      | S k => split_from sep k maxsplit s'
      | O =>
          if may_split maxsplit && String.prefix sep s
          then "" :: split_from sep (String.length sep - 1)
                       (one_split_less maxsplit) s'
          else match split_from sep 0 maxsplit s' with
               | h :: t => String c h :: t
               | [] => [String c ""]
               end
      end
  end.

Definition split (sep : string) (maxsplit : option nat) (s : string)
    : list string :=
  split_from sep 0 maxsplit s.

(** [s.rstrip('+')]-style stripping of one trailing character class. *)
Fixpoint rstrip (c : ascii) (s : string) : string :=
  match s with
  | EmptyString => ""
  | String a s' =>
      match rstrip c s' with
      | EmptyString => if Ascii.eqb a c then "" else String a ""
      | r => String a r
      end
  end.

(** [needle in haystack] as a proposition. *)
Definition contains (haystack needle : string) : Prop :=
  exists before after, haystack = before +:+ needle +:+ after.

(** ** Exceptions raised by the module *)

(** The exceptions that the module raises itself, and [Uncaught]: an
    exception of another class that no [except] clause of the module catches
    and that therefore leaves the call as it is. *)

Inductive exn : Type :=
  | KeyError (key : string)
  | SocketIOError (msg : string)
  | SocketIOConnectionError (msg : string)
  | TimeoutError
  | UnicodeDecodeError
  | Uncaught (e : string).

(** ** [json.dumps(obj, ensure_ascii=False)] *)

(** The values that [json.dumps] accepts, floats apart.  The items of a dict
    come in the order in which the dict is iterated, with [str] keys. *)

Inductive json : Type :=
  | JNull
  | JBool (b : bool)
  | JInt (n : Z)
  | JStr (s : string)
  | JList (items : list json)
  | JDict (items : list (string * json)).

(** Hexadecimal digit, lower case, as ['\\u{0:04x}'.format] prints it. *)
Definition hex_digit (n : N) : ascii :=
  match n with
  | 0 => "0" | 1 => "1" | 2 => "2" | 3 => "3" | 4 => "4" | 5 => "5"
  | 6 => "6" | 7 => "7" | 8 => "8" | 9 => "9" | 10 => "a" | 11 => "b"
  | 12 => "c" | 13 => "d" | 14 => "e" | _ => "f"
  end%N%char.

(** [ESCAPE_DCT] restricted to what [ESCAPE] matches: the backslash, the
    double quote and the control characters below [0x20].  Every other
    character, the bytes from [0x80] up included, has no entry. *)
Definition escape_char (c : ascii) : string :=
  let n := N_of_ascii c in
  if (n =? 92)%N then "\\"
  else if (n =? 34)%N then String "\" (String (ascii_of_N 34) "")
  else if (n =? 8)%N then "\b"
  else if (n =? 12)%N then "\f"
  else if (n =? 10)%N then "\n"
  else if (n =? 13)%N then "\r"
  else if (n =? 9)%N then "\t"
  else if (n <? 32)%N
       then "\u00" +:+ String (hex_digit (n / 16)) (String (hex_digit (n mod 16)) "")
  else String c "".

Fixpoint escape (s : string) : string :=
  match s with
  | EmptyString => ""
  | String c s' => escape_char c +:+ escape s'
  end.

Definition dquote : string := String (ascii_of_N 34) "".

(** [encode_basestring]. *)
Definition encode_basestring (s : string) : string :=
  dquote +:+ escape s +:+ dquote.

(** The encoder with the default separators [', '] and [': ']; a dict is
    given by its items in iteration order. *)
Fixpoint dumps (obj : json) : string :=
  match obj with
  | JNull => "null"
  | JBool true => "true"
  | JBool false => "false"
  | JInt n => str_int n
  | JStr s => encode_basestring s
  | JList items => "[" +:+ join ", " (map dumps items) +:+ "]"
  | JDict items =>
      "{" +:+ join ", "
                (map (fun kv => encode_basestring (fst kv) +:+ ": " +:+ dumps (snd kv))
                     items)
          +:+ "}"
  end.

(** ** [_AbstractTransport] *)

(** What one iteration of [for packet_text in self.recv()] receives: a text,
    or an object without a [split] attribute (such as [None]), for which the
    call raises [AttributeError]. *)
Inductive recv_unit : Type :=
  | Text (packet_text : string)
  | NotText.

(** The tuple [(code, packet_id, path, data)]; [None] is Python's [None]. *)
Definition packet : Type :=
  (option string * option string * option string * option string)%type.

(** The body of the [for] loop of [recv_packet], started with the current
    values of the four local variables.  The variables are assigned before the
    loop and only where a branch assigns them; the [yield] is reached for every
    text, whatever the number of parts. *)
Fixpoint recv_packet_loop (vars : packet) (units : list recv_unit)
    : list packet :=
  match units with
  | [] => []
  | NotText :: rest => recv_packet_loop vars rest
  | Text packet_text :: rest =>
      let packet_parts := split ":" (Some 3) packet_text in
      let '(code, packet_id, path, data) := vars in
      let vars' :=
        match packet_parts with
        | [c; i; p; d] => (Some c, Some i, Some p, Some d)
        | [c; i; p] => (Some c, Some i, Some p, data)
        | [c] => (Some c, packet_id, path, data)
        | _ => (code, packet_id, path, data)
        end in
      vars' :: recv_packet_loop vars' rest
  end.

(** [recv_packet], on the units that [self.recv()] yields. *)
Definition recv_packet (units : list recv_unit) : list packet :=
  recv_packet_loop (None, None, None, None) units.

(** Lines 64-65 of [send_packet]. *)
Definition packet_text (code : Z) (packet_id path data : string) : string :=
  let packet_parts := [str_int code; packet_id; path; data] in
  join ":" packet_parts.

Section AbstractTransport.
(** The type of callbacks and the state of the concrete class. *)
Context {callback conn : Type}.

Record transport : Type := Transport {
  _packet_id : Z;
  _callback_by_packet_id : gmap string callback;
  connection : conn
}.

(** [__init__]. *)
Definition init (c : conn) : transport :=
  {| _packet_id := 0; _callback_by_packet_id := ∅; connection := c |}.

(** A method call: it returns a value or raises, and leaves a state behind
    in both cases, since an exception does not undo assignments. *)
Definition action (A : Type) : Type := transport -> (exn + A) * transport.

Definition ret {A} (a : A) : action A := fun t => (inr a, t).

Definition raise {A} (e : exn) : action A := fun t => (inl e, t).

Definition bind {A B} (m : action A) (k : A -> action B) : action B :=
  fun t =>
    match m t with
    | (inl e, t') => (inl e, t')
    | (inr a, t') => k a t'
    end.

Notation "'let*' x ':=' m 'in' k" := (bind m (fun x => k))
  (at level 10, x name, m at level 100, k at level 200).

(** The abstract method [send] of the concrete class: it acts on the
    connection only. *)
Variable send : string -> conn -> (exn + unit) * conn.

Definition self_send (text : string) : action unit :=
  fun t =>
    let '(r, c) := send text (connection t) in
    (r, {| _packet_id := _packet_id t;
           _callback_by_packet_id := _callback_by_packet_id t;
           connection := c |}).

Definition set_ack_callback (cb : callback) : action string :=
  fun t =>
    let n := (_packet_id t + 1)%Z in
    (inr (str_int n +:+ "+"),
     {| _packet_id := n;
        _callback_by_packet_id := <[str_int n := cb]> (_callback_by_packet_id t);
        connection := connection t |}).

Definition get_ack_callback (packet_id : string) : action callback :=
  fun t =>
    match _callback_by_packet_id t !! packet_id with
    | None => (inl (KeyError packet_id), t)
    | Some cb =>
        (inr cb,
         {| _packet_id := _packet_id t;
            _callback_by_packet_id := delete packet_id (_callback_by_packet_id t);
            connection := connection t |})
    end.

Definition has_ack_callback (t : transport) : bool :=
  negb (bool_decide (_callback_by_packet_id t = ∅)).

(** [callback=None] is [None]; a callback object is truthy. *)
Definition send_packet (code : Z) (path data : string)
    (cb : option callback) : action unit :=
  let* packet_id := match cb with
                    | Some f => set_ack_callback f
                    | None => ret ""
                    end in
  self_send (packet_text code packet_id path data).

Definition connect (path : string) : action unit :=
  send_packet 1 path "" None.

Definition send_heartbeat : action unit :=
  send_packet 2 "" "" None.

Definition noop : action unit :=
  send_packet 8 "" "" None.

(** [isinstance(data, basestring)] holds of a string and of nothing else. *)
Definition message (path : string) (data : json) (cb : option callback)
    : action unit :=
  match data with
  | JStr s => send_packet 3 path s cb
  | _ => send_packet 4 path (dumps data) cb
  end.

(** A caller's use of one transport: a sequence of method calls, each run
    on the state the previous one left, whether it returned or raised. *)
Inductive call : Type :=
  | SetAck (cb : callback)
  | GetAck (packet_id : string)
  | SendPacket (code : Z) (path data : string) (cb : option callback)
  | Message (path : string) (data : json) (cb : option callback)
  | Heartbeat.

Definition discard {A} (m : action A) : transport -> transport :=
  fun t => snd (m t).

Definition perform (c : call) : transport -> transport :=
  match c with
  | SetAck cb => discard (set_ack_callback cb)
  | GetAck packet_id => discard (get_ack_callback packet_id)
  | SendPacket code path data cb => discard (send_packet code path data cb)
  | Message path data cb => discard (message path data cb)
  | Heartbeat => discard send_heartbeat
  end.

Definition perform_all (calls : list call) (t : transport) : transport :=
  fold_left (fun st c => perform c st) calls t.

(** Whether a call reaches [set_ack_callback]. *)
Definition mints_id (c : call) : bool :=
  match c with
  | SetAck _ => true
  | SendPacket _ _ _ (Some _) => true
  | Message _ _ (Some _) => true
  | _ => false
  end.

Fixpoint minted (calls : list call) : nat :=
  match calls with
  | [] => 0
  | c :: rest => (if mints_id c then 1 else 0) + minted rest
  end.

(** Every key of the registry is free of ['+']. *)
Definition plain_keys (t : transport) : Prop :=
  forall k f, _callback_by_packet_id t !! k = Some f -> has_char "+" k = false.
End AbstractTransport.

Arguments transport : clear implicits.
Arguments call : clear implicits.

(** A concrete [send] that never fails and appends the text to the list of
    what went out on the wire. *)
Definition wire_send (text : string) (wire : list string)
    : (exn + unit) * list string :=
  (inr tt, (wire ++ [text])%list).

(** ** Concrete transports and [_negotiate_transport] *)

Definition TRANSPORTS : list string :=
  ["websocket"; "xhr-polling"; "jsonp-polling"].

(** The session object: only [id] and [server_supported_transports] are
    read. *)
Record session : Type := Session {
  id : string;
  server_supported_transports : list string
}.

(** What [websocket.create_connection(url)] does: it returns a connection,
    or raises [socket.timeout], or [socket.error], or an exception of
    neither class. *)
Inductive socket_result : Type :=
  | Connected
  | SocketTimeout (e : string)
  | SocketError (e : string)
  | OtherException (e : string).

Inductive transport_class : Type :=
  | WebsocketTransport
  | XHR_PollingTransport
  | JSONP_PollingTransport.

(** The path component each class puts in its URL. *)
Definition transport_name (cls : transport_class) : string :=
  match cls with
  | WebsocketTransport => "websocket"
  | XHR_PollingTransport => "xhr-polling"
  | JSONP_PollingTransport => "jsonp-polling"
  end.

(** The dict literal of [_negotiate_transport]; [None] is a missing key. *)
Definition transport_classes (name : string) : option transport_class :=
  if String.eqb name "websocket" then Some WebsocketTransport
  else if String.eqb name "xhr-polling" then Some XHR_PollingTransport
  else if String.eqb name "jsonp-polling" then Some JSONP_PollingTransport
  else None.

Section Negotiation.
(** The keyword options [**kw], which [_prepare_http_session] copies into
    the HTTP session, and the callbacks. *)
Context {kwargs callback : Type}.

(** The attributes the subclasses add to [_AbstractTransport]. *)
Inductive concrete : Type :=
  | Websocket (url : string)
  | XHR_Polling (_url : string) (_connected : bool) (_http_session : kwargs)
  | JSONP_Polling (_url : string) (_connected : bool)
      (_http_session : kwargs) (_jsonp_id : Z).

Definition class_of (c : concrete) : transport_class :=
  match c with
  | Websocket _ => WebsocketTransport
  | XHR_Polling _ _ _ => XHR_PollingTransport
  | JSONP_Polling _ _ _ _ => JSONP_PollingTransport
  end.

Variable create_connection : string -> socket_result.

(** ['%s://%s/<name>/%s' % (scheme, base_url, socketIO_session.id)] *)
Definition transport_url (scheme base_url name : string) (s : session)
    : string :=
  scheme +:+ "://" +:+ base_url +:+ "/" +:+ name +:+ "/" +:+ id s.

Definition _WebsocketTransport (s : session) (secure : bool)
    (base_url : string) (kw : kwargs) : exn + transport callback concrete :=
  let url := transport_url (if secure then "wss" else "ws") base_url
               "websocket" s in
  match create_connection url with
  | Connected => inr (init (Websocket url))
  | SocketTimeout e => inl (SocketIOConnectionError e)
  | SocketError e => inl (SocketIOConnectionError e)
  | OtherException e => inl (Uncaught e)
  end.

Definition _XHR_PollingTransport (s : session) (secure : bool)
    (base_url : string) (kw : kwargs) : exn + transport callback concrete :=
  let url := transport_url (if secure then "https" else "http") base_url
               "xhr-polling" s in
  inr (init (XHR_Polling url true kw)).

Definition _JSONP_PollingTransport (s : session) (secure : bool)
    (base_url : string) (kw : kwargs) : exn + transport callback concrete :=
  let url := transport_url (if secure then "https" else "http") base_url
               "jsonp-polling" s in
  inr (init (JSONP_Polling url true kw 0)).

Definition construct (cls : transport_class)
    : session -> bool -> string -> kwargs -> exn + transport callback concrete :=
  match cls with
  | WebsocketTransport => _WebsocketTransport
  | XHR_PollingTransport => _XHR_PollingTransport
  | JSONP_PollingTransport => _JSONP_PollingTransport
  end.

Definition negotiation_failure (client server : list string) : string :=
  join " " [ "could not negotiate a transport:";
             "client supports " +:+ join ", " client +:+ " but";
             "server supports " +:+ join ", " server ].

(** The [for] loop over the client's transports that are still to be
    tried; its last line is the [raise] after the loop. *)
Fixpoint negotiate_from (client_supported_transports : list string)
    (s : session) (secure : bool) (base_url : string) (kw : kwargs)
    (remaining : list string) : exn + transport callback concrete :=
  let server_supported_transports := server_supported_transports s in
  match remaining with
  | supported_transport :: rest =>
      if bool_decide (supported_transport ∈ server_supported_transports)
      then match transport_classes supported_transport with
           | Some cls => construct cls s secure base_url kw
           | None => inl (KeyError supported_transport)
           end
      else negotiate_from client_supported_transports s secure base_url kw rest
  | [] =>
      inl (SocketIOError
             (negotiation_failure client_supported_transports
                server_supported_transports))
  end.

Definition _negotiate_transport (client_supported_transports : list string)
    (s : session) (secure : bool) (base_url : string) (kw : kwargs)
    : exn + transport callback concrete :=
  negotiate_from client_supported_transports s secure base_url kw
    client_supported_transports.
End Negotiation.

Arguments concrete : clear implicits.

(** ** UTF-8 and [_yield_text_from_framed_data] *)

(** A [unicode] object: its code points. *)
Definition unicode : Type := list N.

(** What an element of a [unicode] is: a code point, below [0x110000]. *)
Definition code_point (c : N) : bool := (c <? 0x110000)%N.

(** The [unicode] that an ASCII [str] is coerced to in a comparison. *)
Fixpoint unicode_of_str (s : string) : unicode :=
  match s with
  | EmptyString => []
  | String a s' => N_of_ascii a :: unicode_of_str s'
  end.

Definition utf8_encode_char (c : N) : string :=
  (if c <? 0x80 then String (ascii_of_N c) ""
  else if c <? 0x800 then
    String (ascii_of_N (0xC0 + c / 64))
      (String (ascii_of_N (0x80 + c mod 64)) "")
  else if c <? 0x10000 then
    String (ascii_of_N (0xE0 + c / 4096))
      (String (ascii_of_N (0x80 + (c / 64) mod 64))
         (String (ascii_of_N (0x80 + c mod 64)) ""))
  else
    String (ascii_of_N (0xF0 + c / 262144))
      (String (ascii_of_N (0x80 + (c / 4096) mod 64))
         (String (ascii_of_N (0x80 + (c / 64) mod 64))
            (String (ascii_of_N (0x80 + c mod 64)) ""))))%N.

(** [u.encode('utf-8')]. *)
Fixpoint utf8_encode (u : unicode) : string :=
  match u with
  | [] => ""
  | c :: rest => utf8_encode_char c +:+ utf8_encode rest
  end.

(** A continuation byte, [10xxxxxx]. *)
Definition continuation (b : N) : bool := ((0x80 <=? b) && (b <? 0xC0))%N.

(** [s.decode('utf-8')]; [None] is [UnicodeDecodeError].  The lead byte gives
    the length; overlong forms and values above [0x10FFFF] are refused, and,
    as in Python 2, surrogates are not. *)
Fixpoint utf8_decode (s : string) : option unicode :=
  match s with
  | EmptyString => Some []
  | String a0 s1 =>
      let b0 := N_of_ascii a0 in
      if b0 <? 0x80 then cons b0 <$> utf8_decode s1
      else if b0 <? 0xC2 then None
      else if b0 <? 0xE0 then
        match s1 with
        | String a1 s2 =>
            let b1 := N_of_ascii a1 in
            if continuation b1
            then cons ((b0 - 0xC0) * 64 + (b1 - 0x80)) <$> utf8_decode s2
            else None
        | _ => None
        end
      else if b0 <? 0xF0 then
        match s1 with
        | String a1 (String a2 s3) =>
            let b1 := N_of_ascii a1 in
            let b2 := N_of_ascii a2 in
            if continuation b1 && continuation b2
               && negb ((b0 =? 0xE0) && (b1 <? 0xA0))
            then cons ((b0 - 0xE0) * 4096 + (b1 - 0x80) * 64 + (b2 - 0x80))
                   <$> utf8_decode s3
            else None
        | _ => None
        end
      else if b0 <? 0xF5 then
        match s1 with
        | String a1 (String a2 (String a3 s4)) =>
            let b1 := N_of_ascii a1 in
            let b2 := N_of_ascii a2 in
            let b3 := N_of_ascii a3 in
            if continuation b1 && continuation b2 && continuation b3
               && negb ((b0 =? 0xF0) && (b1 <? 0x90))
               && negb ((b0 =? 0xF4) && (0x8F <? b1))
            then cons ((b0 - 0xF0) * 262144 + (b1 - 0x80) * 4096
                       + (b2 - 0x80) * 64 + (b3 - 0x80))
                   <$> utf8_decode s4
            else None
        | _ => None
        end
      else None
  end%N.

(** [u'\ufffd'.encode('utf-8')] *)
Definition BOUNDARY : string := utf8_encode [0xFFFD%N].

(** [[x.decode('utf-8') for x in xs]]: the first failure raises. *)
Fixpoint decode_all (xs : list string) : option (list unicode) :=
  match xs with
  | [] => Some []
  | x :: rest =>
      match utf8_decode x with
      | None => None
      | Some u => cons u <$> decode_all rest
      end
  end.

(** [l[start::2]] is [stride2 (drop start l)]. *)
Fixpoint stride2 {A} (l : list A) : list A :=
  match l with
  | [] => []
  | [x] => [x]
  | x :: _ :: rest => x :: stride2 rest
  end.

(** [izip]: it stops with the shorter of the two. *)
Fixpoint izip {A B} (l1 : list A) (l2 : list B) : list (A * B) :=
  match l1, l2 with
  | x :: r1, y :: r2 => (x, y) :: izip r1 r2
  | _, _ => []
  end.

(** [text_length == str(len(text))] *)
Definition declared_length_matches (text_length text : unicode) : bool :=
  bool_decide (text_length = unicode_of_str (str_int (Z.of_nat (length text)))).

(** The [for] loop of [_yield_text_from_framed_data]. *)
Fixpoint yield_texts (pairs : list (unicode * unicode)) : list unicode :=
  match pairs with
  | [] => []
  | (text_length, text) :: rest =>
      if declared_length_matches text_length text
      then text :: yield_texts rest
      else yield_texts rest
  end.

Definition _yield_text_from_framed_data (framed_data : string)
    : exn + list unicode :=
  match decode_all (split BOUNDARY None framed_data) with
  | None => inl UnicodeDecodeError
  | Some parts =>
      inr (yield_texts (izip (stride2 (drop 1 parts)) (stride2 (drop 2 parts))))
  end.

(** The cut of a [unicode] at every occurrence of one code point. *)
Fixpoint usplit (sep : N) (u : unicode) : list unicode :=
  match u with
  | [] => [[]]
  | c :: rest =>
      if (c =? sep)%N then [] :: usplit sep rest
      else match usplit sep rest with
           | h :: t => (c :: h) :: t
           | [] => [[c]]
           end
  end.

(** ** Measures used in the statements *)

(** A decimal digit. *)
Definition is_digit (c : ascii) : bool :=
  ((48 <=? N_of_ascii c) && (N_of_ascii c <=? 57))%N.

(** The occurrences of a character. *)
Fixpoint count_char (c : ascii) (s : string) : nat :=
  match s with
  | EmptyString => 0
  | String a s' => (if Ascii.eqb a c then 1 else 0) + count_char c s'
  end.

(** A byte with the high bit set: a byte of a non-ASCII character. *)
Definition non_ascii (c : ascii) : bool := (128 <=? N_of_ascii c)%N.

(** The non-ASCII bytes of a string, in order. *)
Fixpoint high_bytes (s : string) : string :=
  match s with
  | EmptyString => ""
  | String c s' =>
      if non_ascii c then String c (high_bytes s') else high_bytes s'
  end.

Fixpoint all_non_ascii (s : string) : bool :=
  match s with
  | EmptyString => true
  | String c s' => non_ascii c && all_non_ascii s'
  end.

(** The strings of a JSON value, keys and values, in the order in which
    [dumps] writes them. *)
Fixpoint json_strings (obj : json) : string :=
  match obj with
  | JStr s => s
  | JList items => fold_right String.append "" (map json_strings items)
  | JDict items =>
      fold_right String.append ""
        (map (fun kv => fst kv +:+ json_strings (snd kv)) items)
  | _ => ""
  end.

(** The text [message] hands to [send] when there is no callback. *)
Definition message_text (path : string) (data : json) : string :=
  match data with
  | JStr s => "3::" +:+ path +:+ ":" +:+ s
  | _ => "4::" +:+ path +:+ ":" +:+ dumps data
  end.

(** The number of texts among the units of a batch. *)
Fixpoint texts (units : list recv_unit) : nat :=
  match units with
  | [] => 0
  | Text _ :: rest => S (texts rest)
  | NotText :: rest => texts rest
  end.

(** ** [ack] and [disconnect] *)

Section Acknowledge.
Context {callback conn : Type}.
Variable send : string -> conn -> (exn + unit) * conn.

(** [*args] is the tuple of the extra arguments, which [json.dumps] writes
    as a list; it is falsy when it is empty. *)
Definition ack (packet_id : string) (args : list json)
    : action (callback := callback) unit :=
  let packet_id := rstrip "+" packet_id in
  let data := match args with
              | [] => packet_id
              | _ => packet_id +:+ "+" +:+ dumps (JList args)
              end in
  send_packet send 6 "" data None.

(** The property [connected] and the method [close] of the concrete
    class. *)
Variable connected : conn -> bool.
Variable close : conn -> (exn + unit) * conn.

Definition self_close : action (callback := callback) unit :=
  fun t =>
    let '(r, c) := close (connection t) in
    (r, {| _packet_id := _packet_id t;
           _callback_by_packet_id := _callback_by_packet_id t;
           connection := c |}).

(** [if path] holds of a non-empty string. *)
Definition disconnect (path : string) : action (callback := callback) unit :=
  fun t =>
    if negb (connected (connection t)) then (inr tt, t)
    else match path with
         | EmptyString => self_close t
         | _ => send_packet send 0 path "" None t
         end.
End Acknowledge.

(** ** [_get_response] and the methods of the concrete classes *)

(** The [except] clause of [_get_response] that catches what the request
    raised: the first one, in the order of the source, of whose class the
    exception is an instance. *)
Inductive caught_by : Type :=
  | ByTimeout
  | ByConnectionError
  | BySSLError.

(** What the call of [request] does, as far as [_get_response] deals with
    it: it returns a response, of which the status code and the text are
    read, or raises an exception that one of the three clauses catches. An
    exception of another class passes through [_get_response] untouched and
    is not part of this model. *)
Inductive request_outcome : Type :=
  | Responded (status_code : Z) (text : unicode)
  | Raised (clause : caught_by) (e : string).

(** [_get_response]; the exception [_TimeoutError(e)] is [TimeoutError]. *)
Definition _get_response (o : request_outcome) : exn + (Z * unicode) :=
  match o with
  | Raised ByTimeout e => inl TimeoutError
  | Raised ByConnectionError e => inl (SocketIOConnectionError e)
  | Raised BySSLError e =>
      inl (SocketIOConnectionError ("could not negotiate SSL (" +:+ e +:+ ")"))
  | Responded status text =>
      if (status =? 200)%Z then inr (status, text)
      else inl (SocketIOConnectionError
                  ("unexpected status code (" +:+ str_int status +:+ ")"))
  end.

(** [_XHR_PollingTransport.recv], given what its GET request does: the texts
    it yields, in order, and the exception that ends it, if any. *)
Definition XHR_Polling_recv (o : request_outcome) : list unicode * option exn :=
  match _get_response o with
  | inl e => ([], Some e)
  | inr (_, text) =>
      let encoded_text := utf8_encode text in
      let whole :=
        if negb (String.prefix BOUNDARY encoded_text)
        then match utf8_decode encoded_text with
             | Some u => inr [u]
             | None => inl UnicodeDecodeError
             end
        else inr [] in
      match whole with
      | inl e => ([], Some e)
      | inr first =>
          match _yield_text_from_framed_data encoded_text with
          | inl e => (first, Some e)
          | inr rest => ((first ++ rest)%list, None)
          end
      end
  end.

Section ConcreteMethods.
Context {kwargs : Type}.

(** [connected]: the flag of a polling transport, or what the socket says
    when it is asked. *)
Definition connected_of (socket_connected : bool) (c : concrete kwargs) : bool :=
  match c with
  | Websocket _ => socket_connected
  | XHR_Polling _ connected _ => connected
  | JSONP_Polling _ connected _ _ => connected
  end.

(** [close]: a polling transport asks the server to disconnect and, when
    [_get_response] returns, clears its flag; the websocket closes its
    socket. *)
Definition close_of (o : request_outcome) (c : concrete kwargs)
    : (exn + unit) * concrete kwargs :=
  match c with
  | Websocket url => (inr tt, Websocket url)
  | XHR_Polling url connected http =>
      match _get_response o with
      | inl e => (inl e, c)
      | inr _ => (inr tt, XHR_Polling url false http)
      end
  | JSONP_Polling url connected http jsonp_id =>
      match _get_response o with
      | inl e => (inl e, c)
      | inr _ => (inr tt, JSONP_Polling url false http jsonp_id)
      end
  end.

(** [_WebsocketTransport.send]: [socket_error] tells whether the socket
    raises [socket.error]. *)
Definition Websocket_send (socket_error : bool) (packet_text : string)
    (c : concrete kwargs) : (exn + unit) * concrete kwargs :=
  if socket_error
  then (inl (SocketIOConnectionError ("could not send " +:+ packet_text)), c)
  else (inr tt, c).

(** [send] of the polling transports: the POST request through
    [_get_response]. *)
Definition Polling_send (o : request_outcome) (packet_text : string)
    (c : concrete kwargs) : (exn + unit) * concrete kwargs :=
  match _get_response o with
  | inl e => (inl e, c)
  | inr _ => (inr tt, c)
  end.
End ConcreteMethods.

(** ** The framing that the deframer undoes *)

(** [unicode(str(len(text)))] *)
Definition declared_length (text : unicode) : unicode :=
  unicode_of_str (str_int (Z.of_nat (length text))).

(** A polling body that carries the given packets: for each one the marker,
    its length, the marker and the packet. *)
Fixpoint frame (texts : list unicode) : unicode :=
  match texts with
  | [] => []
  | text :: rest =>
      (0xFFFD%N :: declared_length text ++ 0xFFFD%N :: text ++ frame rest)%list
  end.

(** Whether a unit of a batch is a text. *)
Definition is_text (u : recv_unit) : bool :=
  match u with
  | Text _ => true
  | NotText => false
  end.

(** A tuple has every field that an earlier tuple has. *)
Definition keeps_fields (earlier later : packet) : Prop :=
  let '(c1, i1, p1, d1) := earlier in
  let '(c2, i2, p2, d2) := later in
  (is_Some c1 -> is_Some c2) /\ (is_Some i1 -> is_Some i2)
  /\ (is_Some p1 -> is_Some p2) /\ (is_Some d1 -> is_Some d2).

(** Every key of the registry is the decimal form of a counter value that
    has been reached. *)
Definition minted_keys {callback conn : Type} (t : transport callback conn)
    : Prop :=
  forall k f,
    _callback_by_packet_id t !! k = Some f ->
    exists n, k = str_int n /\ (1 <= n <= _packet_id t)%Z.

(** The counter has not gone below its first value and the keys are among
    the values it has taken. *)
Definition counted {callback conn : Type} (t : transport callback conn)
    : Prop :=
  (0 <= _packet_id t)%Z /\ minted_keys t.

(** The URL that a concrete transport holds. *)
Definition url_of {kwargs : Type} (c : concrete kwargs) : string :=
  match c with
  | Websocket url => url
  | XHR_Polling url _ _ => url
  | JSONP_Polling url _ _ _ => url
  end.

(** The scheme that the constructor of a class chooses. *)
Definition scheme_of (cls : transport_class) (secure : bool) : string :=
  match cls with
  | WebsocketTransport => if secure then "wss" else "ws"
  | _ => if secure then "https" else "http"
  end.

(** The occurrences of the marker U+FFFD in a text. *)
Definition markers (u : unicode) : nat := count_occ N.eq_dec u 0xFFFD%N.

(** A text that can travel in a frame: code points, none of them U+FFFD. *)
Definition frameable (u : unicode) : bool :=
  forallb code_point u && negb (existsb (N.eqb 0xFFFD) u).

(** [text.startswith(u'\ufffd')] *)
Definition starts_with_marker (u : unicode) : bool :=
  match u with
  | c :: _ => (c =? 0xFFFD)%N
  | [] => false
  end.

(** ** [_JSONP_PollingTransport.recv] *)

(** The longest run of decimal digits at the head of a string, and what
    follows it: what the greedy digits group of the pattern takes. *)
Fixpoint leading_digits (s : string) : string * string :=
  match s with
  | EmptyString => ("", "")
  | String a s' =>
      if is_digit a
      then let '(ds, rest) := leading_digits s' in (String a ds, rest)
      else ("", s)
  end.

(** The second group of the pattern, matched at the head of a string: the
    longest run of characters other than the newline that is followed by the
    double quote, the closing parenthesis and the semicolon. *)
Fixpoint payload_group (s : string) : option string :=
  match s with
  | EmptyString => None
  | String a s' =>
      if Ascii.eqb a (ascii_of_N 10) then None
      else match payload_group s' with
           | Some g => Some (String a g)
           | None =>
               if String.prefix (dquote +:+ ");") s then Some "" else None
           end
  end.

(** [DATA_PATTERN.match(s)]: the two groups, or [None]. The pattern reads
    [io], any character but the newline, [j], an opening bracket, one or
    more digits (the first group), a closing bracket, an opening
    parenthesis, a double quote, any characters but the newline (the second
    group), a double quote, a closing parenthesis and a semicolon; it is
    matched at the start of the string, each group taking as much as it
    can. *)
Definition DATA_PATTERN_match (s : string) : option (string * string) :=
  match s with
  | String a0 (String a1 (String a2 (String a3 (String a4 s1)))) =>
      if Ascii.eqb a0 "i" && Ascii.eqb a1 "o"
         && negb (Ascii.eqb a2 (ascii_of_N 10))
         && Ascii.eqb a3 "j" && Ascii.eqb a4 "["
      then
        let '(ds, s2) := leading_digits s1 in
        match ds, s2 with
        | String _ _, String b0 (String b1 (String b2 s3)) =>
            if Ascii.eqb b0 "]" && Ascii.eqb b1 "("
               && Ascii.eqb b2 (ascii_of_N 34)
            then match payload_group s3 with
                 | Some g => Some (ds, g)
                 | None => None
                 end
            else None
        | _, _ => None
        end
      else None
  | _ => None
  end.

(** What ends a generator early: an exception of the module, or the
    [AttributeError] of calling [groups] on [None]. *)
Inductive raised : Type :=
  | Raises (e : exn)
  | RaisesAttributeError.

(** [_JSONP_PollingTransport.recv], given what its GET request does: the
    texts it yields, the value it assigns to [_jsonp_id], if any, and what
    ends it early, if anything. *)
Definition JSONP_Polling_recv (o : request_outcome)
    : list unicode * option string * option raised :=
  match _get_response o with
  | inl e => ([], None, Some (Raises e))
  | inr (_, text) =>
      let encoded_text := utf8_encode text in
      let framed (first : list unicode) (jsonp_id : option string) :=
        match _yield_text_from_framed_data encoded_text with
        | inl e => (first, jsonp_id, Some (Raises e))
        | inr rest => ((first ++ rest)%list, jsonp_id, None)
        end in
      if negb (String.prefix BOUNDARY encoded_text)
      then match DATA_PATTERN_match encoded_text with
           | None => ([], None, Some RaisesAttributeError)
           | Some (jsonp_id, encoded_data) =>
               match utf8_decode encoded_data with
               | None => ([], Some jsonp_id, Some (Raises UnicodeDecodeError))
               | Some u => framed [u] (Some jsonp_id)
               end
           end
      else framed [] None
  end.

(** The text of a JSONP response: [io.j], the digits in brackets, and the
    payload between double quotes in parentheses, closed by a semicolon. *)
Definition jsonp_body (digits : string) (payload : unicode) : unicode :=
  (unicode_of_str ("io.j[" +:+ digits +:+ "](" +:+ dquote)
     ++ payload ++ unicode_of_str (dquote +:+ ");"))%list.

(** Whether every character is a decimal digit. *)
Fixpoint all_digits (s : string) : bool :=
  match s with
  | EmptyString => true
  | String a s' => is_digit a && all_digits s'
  end.

(** ** Tactics *)

(** [lia] with the equations of [/] and [mod] by constants. *)
Ltac div_lia := zify; Z.to_euclidean_division_equations; lia.

(** Decide the comparisons of the goal by arithmetic. *)
Ltac decide_tests :=
  repeat match goal with
    | |- context [N.ltb ?a ?b] =>
        first [ rewrite (proj2 (N.ltb_lt a b)) by div_lia
              | rewrite (proj2 (N.ltb_ge a b)) by div_lia ]
    | |- context [N.leb ?a ?b] =>
        first [ rewrite (proj2 (N.leb_le a b)) by div_lia
              | rewrite (proj2 (N.leb_gt a b)) by div_lia ]
    | |- context [N.eqb ?a ?b] =>
        first [ rewrite (proj2 (N.eqb_eq a b)) by div_lia
              | rewrite (proj2 (N.eqb_neq a b)) by div_lia ]
    end.

(** * Properties *)

(** ** Strings *)

Lemma append_assoc (s1 s2 s3 : string) :
  (s1 +:+ s2) +:+ s3 = s1 +:+ (s2 +:+ s3).
Proof. induction s1 as [|a s1 IH]; simpl; [done | by rewrite IH]. Qed.

Lemma append_empty_r (s : string) : s +:+ "" = s.
Proof. induction s as [|a s IH]; simpl; [done | by rewrite IH]. Qed.

Lemma append_length (s1 s2 : string) :
  String.length (s1 +:+ s2) = String.length s1 + String.length s2.
Proof. induction s1 as [|a s1 IH]; simpl; [done | by rewrite IH]. Qed.

(** ** Decimal renderings *)

Lemma has_char_cons c a s :
  has_char c (String a s) = if Ascii.eqb a c then true else has_char c s.
Proof. reflexivity. Qed.

Lemma has_char_app c s1 s2 :
  has_char c (s1 +:+ s2) = has_char c s1 || has_char c s2.
Proof.
  induction s1 as [|a s1 IH]; simpl; [done|].
  destruct (Ascii.eqb a c); [done | apply IH].
Qed.

Lemma has_char_string_of_uint c d :
  is_digit c = false -> has_char c (NilEmpty.string_of_uint d) = false.
Proof.
  intros Hc.
  induction d as [|d IH|d IH|d IH|d IH|d IH|d IH|d IH|d IH|d IH|d IH];
    cbn [NilEmpty.string_of_uint has_char]; [done|..];
    (match goal with
     | |- context [Ascii.eqb ?a c] => destruct (Ascii.eqb a c) eqn:E
     end; [apply Ascii.eqb_eq in E; subst c; discriminate Hc | exact IH]).
Qed.

Lemma has_char_str_int c n :
  is_digit c = false -> c <> "-"%char -> has_char c (str_int n) = false.
Proof.
  intros Hc Hm. unfold str_int.
  assert (Hu : forall d, has_char c (NilZero.string_of_uint d) = false).
  { intros d. unfold NilZero.string_of_uint.
    destruct d; try apply (has_char_string_of_uint c _ Hc).
    cbn [has_char]. destruct (Ascii.eqb "0" c) eqn:E; [|done].
    apply Ascii.eqb_eq in E. subst c. discriminate Hc. }
  destruct (Z.to_int n) as [d|d]; cbn [NilZero.string_of_int has_char];
    [apply Hu|].
  destruct (Ascii.eqb "-" c) eqn:E; [|apply Hu].
  apply Ascii.eqb_eq in E. congruence.
Qed.

Lemma str_int_inj m n : str_int m = str_int n -> m = n.
Proof.
  unfold str_int. intros H.
  assert (Hi : forall z, NilZero.int_of_string (NilZero.string_of_int (Z.to_int z))
                         = Some (Z.to_int z)).
  { intros z. apply NilZero.isi; destruct z; simpl; try discriminate.
    - intros E. injection E as E. revert E. apply DecimalPos.Unsigned.to_uint_nonnil.
    - intros E. injection E as E. revert E. apply DecimalPos.Unsigned.to_uint_nonnil. }
  assert (E : Some (Z.to_int m) = Some (Z.to_int n)).
  { rewrite <- (Hi m), <- (Hi n). by rewrite H. }
  injection E as E.
  rewrite <- (DecimalZ.of_to m), <- (DecimalZ.of_to n). by rewrite E.
Qed.

(** ** [split] on the one-character separator [':'] *)

Lemma prefix_colon c s :
  String.prefix ":" (String c s) = Ascii.eqb c ":".
Proof.
  cbn [String.prefix]. destruct (ascii_dec ":" c) as [<-|Hne].
  { rewrite Ascii.eqb_refl. by destruct s. }
  symmetry. apply Ascii.eqb_neq. congruence.
Qed.

Lemma split_from_exhausted sep s :
  split_from sep 0 (Some 0) s = [s].
Proof. induction s as [|c s IH]; simpl; [done | by rewrite IH]. Qed.

Lemma split_colon_field n a rest :
  has_char ":" a = false ->
  split ":" (Some (S n)) (a +:+ String ":" rest) = a :: split ":" (Some n) rest.
Proof.
  unfold split. induction a as [|c a IH]; intros Ha.
  - change ("" +:+ String ":" rest) with (String ":" rest).
    cbn [split_from]. by rewrite prefix_colon.
  - rewrite has_char_cons in Ha. destruct (Ascii.eqb c ":") eqn:E; [done|].
    change (String c a +:+ String ":" rest) with (String c (a +:+ String ":" rest)).
    cbn [split_from]. rewrite prefix_colon, E. cbn [may_split andb].
    by rewrite (IH Ha).
Qed.

Lemma split_colon_last m s :
  has_char ":" s = false -> split ":" m s = [s].
Proof.
  unfold split. induction s as [|c s IH]; intros Hs; [done|].
  rewrite has_char_cons in Hs. destruct (Ascii.eqb c ":") eqn:E; [done|].
  cbn [split_from]. rewrite prefix_colon, E, andb_false_r. by rewrite (IH Hs).
Qed.

Lemma split_colon_length n s :
  length (split ":" (Some n) s) = S (Nat.min n (count_char ":" s)).
Proof.
  unfold split. revert n. induction s as [|c s IH]; intros n.
  - simpl. by rewrite Nat.min_0_r.
  - cbn [split_from count_char]. rewrite prefix_colon.
    destruct n as [|n]; cbn [may_split andb one_split_less].
    + specialize (IH 0). destruct (split_from ":" 0 (Some 0) s); done.
    + destruct (Ascii.eqb c ":"); simpl.
      * by rewrite IH.
      * specialize (IH (S n)).
        destruct (split_from ":" 0 (Some (S n)) s); [done | exact IH].
Qed.

Lemma count_char_app c s1 s2 :
  count_char c (s1 +:+ s2) = count_char c s1 + count_char c s2.
Proof. induction s1 as [|a s1 IH]; simpl; [done | rewrite IH; lia]. Qed.

Lemma packet_text_colons code packet_id path data :
  3 <= count_char ":" (packet_text code packet_id path data).
Proof.
  unfold packet_text. cbn [join].
  rewrite !count_char_app. simpl. lia.
Qed.

(** ** The packet codec *)

Lemma packet_text_unfold code packet_id path data :
  packet_text code packet_id path data
  = str_int code +:+ String ":" (packet_id +:+ String ":" (path +:+ String ":" data)).
Proof. reflexivity. Qed.

Lemma split_packet_text code packet_id path data :
  has_char ":" packet_id = false ->
  has_char ":" path = false ->
  split ":" (Some 3) (packet_text code packet_id path data)
  = [str_int code; packet_id; path; data].
Proof.
  intros Hid Hpath. rewrite packet_text_unfold.
  rewrite split_colon_field by (by apply has_char_str_int).
  rewrite (split_colon_field _ _ _ Hid), (split_colon_field _ _ _ Hpath).
  unfold split. by rewrite split_from_exhausted.
Qed.

(** C1. A packet whose id and path hold no [':'] survives the trip over the
    wire: the text that [send_packet] builds from [code], [packet_id], [path]
    and [data] is decoded by [recv_packet] to these four values (the code in
    its decimal form), at the head of a batch and after any earlier units. *)
Theorem packet_roundtrip (code : Z) (packet_id path data : string)
    (vars : packet) (rest : list recv_unit) :
  has_char ":" packet_id = false ->
  has_char ":" path = false ->
  recv_packet [Text (packet_text code packet_id path data)]
    = [(Some (str_int code), Some packet_id, Some path, Some data)]
  /\ recv_packet_loop vars (Text (packet_text code packet_id path data) :: rest)
    = (Some (str_int code), Some packet_id, Some path, Some data)
        :: recv_packet_loop
             (Some (str_int code), Some packet_id, Some path, Some data) rest.
Proof.
  intros Hid Hpath.
  pose proof (split_packet_text code packet_id path data Hid Hpath) as Hs.
  split.
  - unfold recv_packet. cbn [recv_packet_loop]. by rewrite Hs.
  - destruct vars as [[[c i] p] d]. cbn [recv_packet_loop]. by rewrite Hs.
Qed.

Lemma packet_roundtrip_witness :
  has_char ":" "12+" = false
  /\ has_char ":" "/chat" = false
  /\ recv_packet [Text (packet_text 5 "12+" "/chat" "a:b:c")]
     = [(Some "5", Some "12+", Some "/chat", Some "a:b:c")].
Proof.
  split; [reflexivity|]. split; [reflexivity|].
  apply (packet_roundtrip 5 "12+" "/chat" "a:b:c" (None, None, None, None) []);
    reflexivity.
Defined.

Lemma recv_packet_loop_length vars units :
  length (recv_packet_loop vars units) = texts units.
Proof.
  revert vars. induction units as [|[text|] units IH]; intros vars.
  - done.
  - destruct vars as [[[c i] p] d]. cbn [recv_packet_loop texts length].
    f_equal. apply IH.
  - cbn [recv_packet_loop texts]. apply IH.
Qed.

(** C2, as the code has it.  A text whose number of fields is none of 1, 3
    and 4 is not skipped: every text of a batch yields one tuple and none
    raises; at the head of a batch such a text yields the tuple of four
    [None], and the units after it are processed as a batch of their own. *)
Theorem recv_packet_other_count_yields (text : string) (rest : list recv_unit) :
  length (split ":" (Some 3) text) <> 1 ->
  length (split ":" (Some 3) text) <> 3 ->
  length (split ":" (Some 3) text) <> 4 ->
  recv_packet (Text text :: rest) = (None, None, None, None) :: recv_packet rest
  /\ forall units, length (recv_packet units) = texts units.
Proof.
  intros H1 H3 H4. split.
  - unfold recv_packet. cbn [recv_packet_loop].
    destruct (split ":" (Some 3) text) as [|a [|b [|c [|d [|e l]]]]];
      simpl in *; done.
  - intros units. apply recv_packet_loop_length.
Qed.

Lemma recv_packet_other_count_yields_witness :
  length (split ":" (Some 3) "7:oops") = 2
  /\ recv_packet [Text "7:oops"; Text "2:::"]
     = (None, None, None, None) :: recv_packet [Text "2:::"].
Proof.
  split; [reflexivity|].
  apply (recv_packet_other_count_yields "7:oops" [Text "2:::"]);
    vm_compute; lia.
Defined.

(** C2 as stated fails: a text of two fields yields a tuple. *)
Lemma recv_packet_two_fields_not_skipped :
  length (split ":" (Some 3) "7:oops") = 2
  /\ recv_packet [Text "7:oops"] = [(None, None, None, None)]
  /\ recv_packet [Text "7:oops"] <> [].
Proof. split; [reflexivity | split; [reflexivity | discriminate]]. Qed.

(** C3 at the failing input.  After a packet of four fields, a text of three
    fields is yielded with the earlier packet's data, and a text of one field
    with the earlier packet's id, path and data: the four variables are set to
    [None] once, before the loop, rather than for each unit. *)
Theorem recv_packet_stale_fields :
  length (split ":" (Some 3) "1::/chat") = 3
  /\ length (split ":" (Some 3) "2") = 1
  /\ recv_packet [Text "3:7:/news:hello"; Text "1::/chat"]
     = [(Some "3", Some "7", Some "/news", Some "hello");
        (Some "1", Some "", Some "/chat", Some "hello")]
  /\ recv_packet [Text "3:7:/news:hello"; Text "2"]
     = [(Some "3", Some "7", Some "/news", Some "hello");
        (Some "2", Some "7", Some "/news", Some "hello")]
  /\ recv_packet [Text "1::/chat"] = [(Some "1", Some "", Some "/chat", None)]
  /\ recv_packet [Text "2"] = [(Some "2", None, None, None)].
Proof. repeat (split; [reflexivity|]). reflexivity. Qed.

(** C4 as stated fails: the heartbeat goes out with its three separators. *)
Lemma send_heartbeat_not_bare :
  connection (snd (send_heartbeat (callback := unit) wire_send (init [])))
    = ["2:::"]
  /\ connection (snd (send_heartbeat (callback := unit) wire_send (init [])))
    <> ["2"].
Proof. split; [reflexivity | discriminate]. Qed.

(** C4, as the code has it.  [send_packet] sends the four fields joined by
    [':'], empty ones included: nothing is cut off at the end, so the text
    always decodes to four fields, and [send_heartbeat] sends ["2:::"]. *)
Theorem send_packet_wire_text {callback conn : Type}
    (send : string -> conn -> (exn + unit) * conn)
    (code : Z) (path data : string) (f : callback)
    (t : transport callback conn) :
  send_packet send code path data None t
    = self_send send (str_int code +:+ "::" +:+ path +:+ ":" +:+ data) t
  /\ send_packet send code path data (Some f) t
    = self_send send
        (str_int code +:+ ":" +:+ str_int (_packet_id t + 1) +:+ "+:"
           +:+ path +:+ ":" +:+ data)
        (snd (set_ack_callback f t))
  /\ (forall packet_id,
        length (split ":" (Some 3) (packet_text code packet_id path data)) = 4)
  /\ send_heartbeat send t = self_send send "2:::" t.
Proof.
  split; [reflexivity|]. split.
  - unfold send_packet, bind, set_ack_callback. cbn [snd].
    rewrite packet_text_unfold. f_equal.
    change (?a +:+ ":" +:+ ?b) with (a +:+ String ":" b).
    f_equal. f_equal. by rewrite append_assoc.
  - split; [|reflexivity]. intros packet_id.
    rewrite split_colon_length.
    pose proof (packet_text_colons code packet_id path data). lia.
Qed.

(** *** Non-ASCII bytes in the JSON text *)

Lemma json_nested_ind (P : json -> Prop) :
  P JNull -> (forall b, P (JBool b)) -> (forall n, P (JInt n)) ->
  (forall s, P (JStr s)) ->
  (forall items, Forall P items -> P (JList items)) ->
  (forall items, Forall (fun kv => P (snd kv)) items -> P (JDict items)) ->
  forall obj, P obj.
Proof.
  intros Hnull Hbool Hint Hstr Hlist Hdict. fix F 1.
  intros [|b|n|s|items|items];
    [exact Hnull | apply Hbool | apply Hint | apply Hstr | |].
  - apply Hlist. revert items. fix G 1.
    intros [|x rest]; constructor; [apply F | apply G].
  - apply Hdict. revert items. fix G 1.
    intros [|kv rest]; constructor; [apply F | apply G].
Qed.

Lemma high_bytes_app s1 s2 :
  high_bytes (s1 +:+ s2) = high_bytes s1 +:+ high_bytes s2.
Proof.
  induction s1 as [|c s1 IH]; cbn [String.append high_bytes]; [done|].
  destruct (non_ascii c); [|done]. by rewrite IH.
Qed.

Lemma high_bytes_escape_char c :
  high_bytes (escape_char c) = high_bytes (String c "").
Proof. by destruct c as [[] [] [] [] [] [] [] []]. Qed.

Lemma high_bytes_escape s : high_bytes (escape s) = high_bytes s.
Proof.
  induction s as [|c s IH]; [done|]. cbn [escape].
  change (String c s) with (String c "" +:+ s).
  by rewrite !high_bytes_app, high_bytes_escape_char, IH.
Qed.

Lemma high_bytes_encode_basestring s :
  high_bytes (encode_basestring s) = high_bytes s.
Proof.
  unfold encode_basestring.
  rewrite !high_bytes_app, high_bytes_escape. change (high_bytes dquote) with "".
  by rewrite append_empty_r.
Qed.

Lemma high_bytes_str_int n : high_bytes (str_int n) = "".
Proof.
  unfold str_int.
  assert (He : forall d, high_bytes (NilEmpty.string_of_uint d) = "")
    by (induction d; done).
  assert (Hu : forall d, high_bytes (NilZero.string_of_uint d) = "")
    by (intros []; try done; apply He).
  destruct (Z.to_int n) as [d|d]; cbn [NilZero.string_of_int]; [apply Hu|].
  change (String "-" ?r) with ("-" +:+ r). rewrite high_bytes_app. apply Hu.
Qed.

Lemma high_bytes_join sep (parts : list string) :
  high_bytes sep = "" ->
  high_bytes (join sep parts)
  = high_bytes (fold_right String.append "" parts).
Proof.
  intros Hsep. induction parts as [|x [|y rest] IH]; [done| |].
  - cbn. by rewrite append_empty_r.
  - change (join sep (x :: y :: rest))
      with (x +:+ sep +:+ join sep (y :: rest)).
    cbn [fold_right] in *.
    by rewrite !high_bytes_app, Hsep, IH, high_bytes_app.
Qed.

Lemma high_bytes_concat (xs ys : list string) :
  Forall2 (fun x y => high_bytes x = high_bytes y) xs ys ->
  high_bytes (fold_right String.append "" xs)
  = high_bytes (fold_right String.append "" ys).
Proof.
  induction 1 as [|x y xs ys Hxy _ IH]; [done|]. cbn [fold_right].
  by rewrite !high_bytes_app, Hxy, IH.
Qed.

(** [dumps] writes every non-ASCII byte of the strings of a value, in
    order, and no other. *)
Lemma dumps_high_bytes obj :
  high_bytes (dumps obj) = high_bytes (json_strings obj).
Proof.
  induction obj as [|[|]|n|s|items IH|items IH] using json_nested_ind;
    try done.
  - apply high_bytes_str_int.
  - apply high_bytes_encode_basestring.
  - cbn [dumps json_strings]. rewrite !high_bytes_app.
    change (high_bytes "[") with "". change (high_bytes "]") with "".
    rewrite append_empty_r. cbn [String.append].
    rewrite high_bytes_join by done. apply high_bytes_concat.
    induction IH; cbn [map]; constructor; done.
  - cbn [dumps json_strings]. rewrite !high_bytes_app.
    change (high_bytes "{") with "". change (high_bytes "}") with "".
    rewrite append_empty_r. cbn [String.append].
    rewrite high_bytes_join by done. apply high_bytes_concat.
    induction IH as [|kv rest Hkv _ IHrest]; cbn [map]; constructor; [|done].
    cbn beta. change (String ":" (String " " ?r)) with (": " +:+ r).
    rewrite !high_bytes_app, high_bytes_encode_basestring, Hkv.
    change (high_bytes ": ") with "". done.
Qed.

Lemma escape_non_ascii s : all_non_ascii s = true -> escape s = s.
Proof.
  induction s as [|c s IH]; cbn [all_non_ascii escape]; [done|].
  rewrite andb_true_iff. intros [Hc Hs]. rewrite (IH Hs).
  destruct c as [b0 b1 b2 b3 b4 b5 b6 [|]].
  - by destruct b0, b1, b2, b3, b4, b5, b6.
  - by destruct b0, b1, b2, b3, b4, b5, b6.
Qed.

Lemma message_sends {callback conn : Type}
    (send : string -> conn -> (exn + unit) * conn)
    (path : string) (data : json) (t : transport callback conn) :
  message send path data None t
  = (fst (send (message_text path data) (connection t)),
     {| _packet_id := _packet_id t;
        _callback_by_packet_id := _callback_by_packet_id t;
        connection := snd (send (message_text path data) (connection t)) |}).
Proof.
  assert (H : forall code payload,
            send_packet send code path payload None t
            = (fst (send (packet_text code "" path payload) (connection t)),
               {| _packet_id := _packet_id t;
                  _callback_by_packet_id := _callback_by_packet_id t;
                  connection :=
                    snd (send (packet_text code "" path payload)
                           (connection t)) |})).
  { intros code payload. unfold send_packet, bind, ret, self_send.
    by destruct (send _ (connection t)). }
  destruct data as [|[|]|n|s|items|items]; apply H.
Qed.

(** C5. Without a callback, [message] hands exactly one text to [send] and
    changes nothing else: a string goes out verbatim under code 3, anything
    else under code 4 as its JSON text. That text holds every non-ASCII byte
    of the strings of the value, in order, and no other; a string of
    non-ASCII bytes stands in it as it is, between double quotes. *)
Theorem message_wire_text {callback conn : Type}
    (send : string -> conn -> (exn + unit) * conn)
    (path : string) (data : json) (t : transport callback conn) :
  message send path data None t
    = match data with
      | JStr s => self_send send ("3::" +:+ path +:+ ":" +:+ s) t
      | _ => self_send send ("4::" +:+ path +:+ ":" +:+ dumps data) t
      end
  /\ message send "/chat" (JStr "hello") None t
    = self_send send "3::/chat:hello" t
  /\ message send "/chat" (JDict [("a", JInt 1)]) None t
    = self_send send ("4::/chat:{" +:+ dquote +:+ "a" +:+ dquote +:+ ": 1}") t
  /\ (forall b0 b1 b2 b3 b4 b5 b6,
        escape_char (Ascii b0 b1 b2 b3 b4 b5 b6 true)
          = String (Ascii b0 b1 b2 b3 b4 b5 b6 true) "")
  /\ message send path data None t
    = (fst (send (message_text path data) (connection t)),
       {| _packet_id := _packet_id t;
          _callback_by_packet_id := _callback_by_packet_id t;
          connection := snd (send (message_text path data) (connection t)) |})
  /\ (forall wire,
        connection (snd (message (callback := callback) wire_send path data
                           None (init wire)))
        = (wire ++ [match data with
                    | JStr s => "3::" +:+ path +:+ ":" +:+ s
                    | _ => "4::" +:+ path +:+ ":" +:+ dumps data
                    end])%list)
  /\ high_bytes (dumps data) = high_bytes (json_strings data)
  /\ (forall s,
        all_non_ascii s = true ->
        dumps (JStr s) = dquote +:+ s +:+ dquote
        /\ connection (snd (message (callback := callback) wire_send path
                              (JList [JStr s]) None (init [])))
           = ["4::" +:+ path +:+ ":[" +:+ dquote +:+ s +:+ dquote +:+ "]"])
  /\ (let e_acute := String (ascii_of_N 195) (String (ascii_of_N 169) "") in
      connection (snd (message (callback := callback) wire_send "/chat"
                         (JDict [("a", JStr e_acute)]) None (init [])))
      = ["4::/chat:{" +:+ dquote +:+ "a" +:+ dquote +:+ ": "
           +:+ dquote +:+ e_acute +:+ dquote +:+ "}"]).
Proof.
  split; [by destruct data as [|[|]| | | |]|].
  split; [reflexivity|]. split; [reflexivity|].
  split; [intros [|] [|] [|] [|] [|] [|] [|]; reflexivity|].
  split; [apply message_sends|].
  split.
  { intros wire. rewrite message_sends. cbn [snd connection init wire_send].
    by destruct data. }
  split; [apply dumps_high_bytes|].
  split; [|reflexivity].
  intros s Hs. split.
  - cbn [dumps]. unfold encode_basestring. by rewrite (escape_non_ascii s Hs).
  - rewrite message_sends. cbn [snd connection init wire_send app].
    unfold message_text. cbn [dumps map join]. unfold encode_basestring.
    rewrite (escape_non_ascii s Hs). f_equal. cbn [String.append].
    by rewrite !append_assoc.
Qed.

Lemma message_wire_text_witness :
  let e_acute := String (ascii_of_N 195) (String (ascii_of_N 169) "") in
  all_non_ascii e_acute = true
  /\ dumps (JStr e_acute) = dquote +:+ e_acute +:+ dquote
  /\ connection (snd (message (callback := nat) wire_send "/chat"
                        (JList [JStr e_acute]) None (init [])))
     = ["4::/chat:[" +:+ dquote +:+ e_acute +:+ dquote +:+ "]"].
Proof.
  intros e_acute. split; [reflexivity|].
  destruct (message_wire_text (callback := nat) wire_send "/chat" JNull
              (init [])) as (_ & _ & _ & _ & _ & _ & _ & H & _).
  exact (H e_acute eq_refl).
Defined.

(** ** The ack-callback registry *)

Section Registry.
Context {callback conn : Type}.
Variable send : string -> conn -> (exn + unit) * conn.

Implicit Types (t : transport callback conn) (c : call callback).

Lemma self_send_fields text t :
  _packet_id (snd (self_send send text t)) = _packet_id t
  /\ _callback_by_packet_id (snd (self_send send text t))
     = _callback_by_packet_id t.
Proof. unfold self_send. by destruct (send text (connection t)). Qed.

Lemma send_packet_state code path data cb t :
  let t' := snd (send_packet send code path data cb t) in
  match cb with
  | Some f =>
      _packet_id t' = (_packet_id t + 1)%Z
      /\ _callback_by_packet_id t'
         = <[str_int (_packet_id t + 1) := f]> (_callback_by_packet_id t)
  | None =>
      _packet_id t' = _packet_id t
      /\ _callback_by_packet_id t' = _callback_by_packet_id t
  end.
Proof.
  unfold send_packet, bind.
  destruct cb as [f|]; cbn [set_ack_callback ret];
    match goal with
    | |- context [self_send send ?x ?s] =>
        destruct (self_send_fields x s) as [-> ->]
    end; done.
Qed.

Lemma message_state path data cb t :
  let t' := snd (message send path data cb t) in
  match cb with
  | Some f =>
      _packet_id t' = (_packet_id t + 1)%Z
      /\ _callback_by_packet_id t'
         = <[str_int (_packet_id t + 1) := f]> (_callback_by_packet_id t)
  | None =>
      _packet_id t' = _packet_id t
      /\ _callback_by_packet_id t' = _callback_by_packet_id t
  end.
Proof. destruct data as [|[|]| | | |]; apply send_packet_state. Qed.

(** The counter moves by one for each id minted, and by nothing else. *)
Lemma perform_packet_id c t :
  _packet_id (perform send c t)
  = (_packet_id t + (if mints_id c then 1 else 0))%Z.
Proof.
  destruct c as [f|pid|code path data cb|path data cb|];
    cbn [perform mints_id]; unfold discard.
  - cbn [set_ack_callback snd _packet_id]. lia.
  - unfold get_ack_callback.
    destruct (_callback_by_packet_id t !! pid); cbn [snd _packet_id]; lia.
  - pose proof (send_packet_state code path data cb t) as H.
    destruct cb; destruct H as [-> _]; lia.
  - pose proof (message_state path data cb t) as H.
    destruct cb; destruct H as [-> _]; lia.
  - pose proof (send_packet_state 2 "" "" None t) as [H _].
    unfold send_heartbeat. rewrite H. lia.
Qed.

Lemma perform_all_packet_id (calls : list (call callback)) t :
  _packet_id (perform_all send calls t)
  = (_packet_id t + Z.of_nat (minted calls))%Z.
Proof.
  revert t. unfold perform_all.
  induction calls as [|c calls IH]; intros t; cbn [fold_left minted].
  - lia.
  - rewrite IH, perform_packet_id. destruct (mints_id c); lia.
Qed.

Lemma minted_app (calls1 calls2 : list (call callback)) :
  minted (calls1 ++ calls2) = minted calls1 + minted calls2.
Proof.
  induction calls1 as [|c calls1 IH]; cbn [app minted]; [done|].
  rewrite IH. lia.
Qed.

Lemma plain_keys_insert n f t t' :
  plain_keys t ->
  _callback_by_packet_id t' = <[str_int n := f]> (_callback_by_packet_id t) ->
  plain_keys t'.
Proof.
  intros Ht Heq k g. rewrite Heq.
  destruct (decide (str_int n = k)) as [<-|Hne].
  - intros _. by apply has_char_str_int.
  - rewrite lookup_insert_ne by done. apply Ht.
Qed.

Lemma perform_plain_keys c t : plain_keys t -> plain_keys (perform send c t).
Proof.
  intros Ht.
  destruct c as [f|pid|code path data cb|path data cb|];
    cbn [perform]; unfold discard.
  - by eapply plain_keys_insert.
  - unfold get_ack_callback.
    destruct (_callback_by_packet_id t !! pid) eqn:E; cbn [snd]; [|done].
    intros k g. cbn [_callback_by_packet_id].
    destruct (decide (pid = k)) as [<-|Hne].
    + by rewrite lookup_delete_eq.
    + rewrite lookup_delete_ne by done. apply Ht.
  - pose proof (send_packet_state code path data cb t) as H.
    destruct cb as [f|]; destruct H as [_ H].
    + by eapply plain_keys_insert.
    + intros k g. rewrite H. apply Ht.
  - pose proof (message_state path data cb t) as H.
    destruct cb as [f|]; destruct H as [_ H].
    + by eapply plain_keys_insert.
    + intros k g. rewrite H. apply Ht.
  - pose proof (send_packet_state 2 "" "" None t) as [_ H].
    intros k g. unfold send_heartbeat. rewrite H. apply Ht.
Qed.

Lemma perform_all_plain_keys (calls : list (call callback)) t :
  plain_keys t -> plain_keys (perform_all send calls t).
Proof.
  revert t. unfold perform_all.
  induction calls as [|c calls IH]; intros t Ht; cbn [fold_left]; [done|].
  apply IH. by apply perform_plain_keys.
Qed.

Lemma init_plain_keys (c0 : conn) :
  plain_keys (callback := callback) (init c0).
Proof. intros k f. cbn. by rewrite lookup_empty. Qed.
End Registry.

Lemma rstrip_appended c s :
  has_char c s = false -> rstrip c (s +:+ String c "") = s.
Proof.
  induction s as [|a s IH]; intros Hs.
  - simpl. by rewrite Ascii.eqb_refl.
  - rewrite has_char_cons in Hs. destruct (Ascii.eqb a c) eqn:E; [done|].
    change (String a s +:+ String c "") with (String a (s +:+ String c "")).
    cbn [rstrip]. rewrite (IH Hs). destruct s; [by rewrite E | done].
Qed.

(** C8. On one transport, whatever calls came before, the call of
    [set_ack_callback] that is the n-th to mint an id returns [str(n) + "+"]
    and leaves the counter at n; a later call returns a larger number. *)
Theorem set_ack_callback_nth {callback conn : Type}
    (send : string -> conn -> (exn + unit) * conn) (c0 : conn)
    (calls more : list (call callback)) (f g : callback) :
  let n := Z.of_nat (S (minted calls)) in
  let t := perform_all send calls (init c0) in
  let t' := perform_all send (calls ++ SetAck f :: more) (init c0) in
  fst (set_ack_callback f t) = inr (str_int n +:+ "+")
  /\ _packet_id (snd (set_ack_callback f t)) = n
  /\ fst (set_ack_callback f (init c0)) = inr "1+"
  /\ exists n', (n < n')%Z
       /\ fst (set_ack_callback g t') = inr (str_int n' +:+ "+").
Proof.
  intros n t t'.
  assert (Ht : (_packet_id t + 1)%Z = n).
  { unfold t, n. rewrite perform_all_packet_id. cbn. lia. }
  split; [cbn; by rewrite Ht|]. split; [cbn; by rewrite Ht|].
  split; [reflexivity|].
  exists (_packet_id t' + 1)%Z. split; [|reflexivity].
  unfold t', n. rewrite perform_all_packet_id, minted_app. cbn. lia.
Qed.

(** C9. A registered id is claimed once: [get_ack_callback] returns its
    callback and removes the entry, leaving every other entry as it was, and
    the same call made again raises [KeyError]; so does a call with an id that
    is not registered, which changes nothing. *)
Theorem get_ack_callback_once {callback conn : Type}
    (t : transport callback conn) (packet_id : string) :
  match _callback_by_packet_id t !! packet_id with
  | Some f =>
      exists t',
        get_ack_callback packet_id t = (inr f, t')
        /\ _callback_by_packet_id t' !! packet_id = None
        /\ get_ack_callback packet_id t' = (inl (KeyError packet_id), t')
        /\ (forall other, other <> packet_id ->
              _callback_by_packet_id t' !! other
              = _callback_by_packet_id t !! other)
        /\ _packet_id t' = _packet_id t
        /\ connection t' = connection t
  | None => get_ack_callback packet_id t = (inl (KeyError packet_id), t)
  end.
Proof.
  destruct (_callback_by_packet_id t !! packet_id) as [f|] eqn:E.
  - eexists. unfold get_ack_callback at 1. rewrite E. split; [reflexivity|].
    cbn [_callback_by_packet_id _packet_id connection].
    split; [apply lookup_delete_eq|].
    split.
    { unfold get_ack_callback. cbn [_callback_by_packet_id].
      by rewrite lookup_delete_eq. }
    split; [|done]. intros other Hne. by apply lookup_delete_ne.
  - unfold get_ack_callback. by rewrite E.
Qed.

Lemma get_ack_callback_once_witness :
  let t := snd (set_ack_callback (callback := nat) 7
             (snd (set_ack_callback 5 (init tt)))) in
  fst (get_ack_callback "1" t) = inr 5
  /\ fst (get_ack_callback "1" (snd (get_ack_callback "1" t)))
     = inl (KeyError "1")
  /\ _callback_by_packet_id (snd (get_ack_callback "1" t)) !! "2" = Some 7
  /\ fst (get_ack_callback "3" t) = inl (KeyError "3").
Proof.
  intros t.
  pose proof (get_ack_callback_once t "1") as H1.
  pose proof (get_ack_callback_once t "3") as H3.
  assert (E1 : _callback_by_packet_id t !! "1" = Some 5) by reflexivity.
  assert (E3 : _callback_by_packet_id t !! "3" = None) by reflexivity.
  rewrite E1 in H1. rewrite E3 in H3.
  destruct H1 as (t' & Hget & _ & Hagain & Hrest & _).
  rewrite Hget. cbn [fst snd]. rewrite Hagain, H3. cbn [fst].
  repeat (split; [reflexivity|]).
  split; [|reflexivity]. rewrite Hrest by discriminate. reflexivity.
Defined.

(** C10. On a transport reached by any calls, the id that [set_ack_callback]
    returns is no key of the registry: [get_ack_callback] raises [KeyError] on
    it. The callback is stored under the digits alone, that is under the id
    with its trailing ['+'] stripped. *)
Theorem returned_id_is_not_key {callback conn : Type}
    (send : string -> conn -> (exn + unit) * conn) (c0 : conn)
    (calls : list (call callback)) (f : callback) :
  let t := perform_all send calls (init c0) in
  exists n t1,
    set_ack_callback f t = (inr (str_int n +:+ "+"), t1)
    /\ get_ack_callback (str_int n +:+ "+") t1
       = (inl (KeyError (str_int n +:+ "+")), t1)
    /\ _callback_by_packet_id t1 !! str_int n = Some f
    /\ rstrip "+" (str_int n +:+ "+") = str_int n
    /\ fst (get_ack_callback (rstrip "+" (str_int n +:+ "+")) t1) = inr f.
Proof.
  intros t. eexists _, _. split; [reflexivity|].
  set (n := (_packet_id t + 1)%Z).
  set (t1 := Transport _ _ _).
  assert (Hplain : plain_keys t1).
  { eapply (plain_keys_insert n f t); [|reflexivity].
    apply perform_all_plain_keys, init_plain_keys. }
  assert (Hstored : _callback_by_packet_id t1 !! str_int n = Some f).
  { apply lookup_insert_eq. }
  assert (Hstrip : rstrip "+" (str_int n +:+ "+") = str_int n).
  { apply rstrip_appended. by apply has_char_str_int. }
  split.
  { unfold get_ack_callback.
    destruct (_callback_by_packet_id t1 !! (str_int n +:+ "+")) as [g|] eqn:E;
      [|done].
    apply Hplain in E. rewrite has_char_app in E. simpl in E.
    by rewrite orb_true_r in E. }
  split; [done|]. split; [done|].
  rewrite Hstrip. unfold get_ack_callback. by rewrite Hstored.
Qed.

(** ** UTF-8 *)

Lemma code_point_bound c : code_point c = true -> (c < 0x110000)%N.
Proof. unfold code_point. by rewrite N.ltb_lt. Qed.

Lemma utf8_decode_encode_char c rest :
  code_point c = true ->
  utf8_decode (utf8_encode_char c +:+ rest) = cons c <$> utf8_decode rest.
Proof.
  intros Hc. apply code_point_bound in Hc. unfold utf8_encode_char.
  destruct (N.ltb_spec c 0x80); [|destruct (N.ltb_spec c 0x800);
    [|destruct (N.ltb_spec c 0x10000)]];
    cbn [String.append utf8_decode]; unfold continuation;
    rewrite ?N_ascii_embedding by div_lia; decide_tests; cbn [andb negb];
    try reflexivity;
    try match goal with
      | |- (if ?cond then _ else _) = _ =>
          let Hcond := fresh in
          assert (Hcond : cond = true)
            by (rewrite ?andb_true_iff, ?negb_true_iff, ?andb_false_iff,
                  ?N.eqb_neq, ?N.ltb_ge; div_lia);
          rewrite Hcond
      end;
    f_equal; f_equal; div_lia.
Qed.

Lemma utf8_decode_encode (u : unicode) :
  forallb code_point u = true -> utf8_decode (utf8_encode u) = Some u.
Proof.
  induction u as [|c u IH]; cbn [forallb utf8_encode]; [done|].
  rewrite andb_true_iff. intros [Hc Hu].
  by rewrite (utf8_decode_encode_char c _ Hc), (IH Hu).
Qed.

(** ** [split] on the boundary marker *)

Lemma BOUNDARY_bytes :
  BOUNDARY
  = String (ascii_of_N 239) (String (ascii_of_N 191) (String (ascii_of_N 189) "")).
Proof. reflexivity. Qed.

Lemma prefix_empty s : String.prefix "" s = true.
Proof. by destruct s. Qed.

Lemma prefix_cons x p y s :
  String.prefix (String x p) (String y s)
  = if Ascii.eqb x y then String.prefix p s else false.
Proof.
  cbn [String.prefix]. destruct (ascii_dec x y) as [->|Hne].
  - by rewrite Ascii.eqb_refl.
  - by apply Ascii.eqb_neq in Hne as ->.
Qed.

Lemma ascii_of_N_eqb m n :
  (m < 256)%N -> (n < 256)%N ->
  Ascii.eqb (ascii_of_N m) (ascii_of_N n) = (m =? n)%N.
Proof.
  intros Hm Hn. destruct (N.eqb_spec m n) as [->|Hne].
  - apply Ascii.eqb_refl.
  - apply Ascii.eqb_neq. intros E. apply Hne.
    by rewrite <- (N_ascii_embedding m), <- (N_ascii_embedding n), E.
Qed.

Lemma split_from_nonempty sep skip m s : split_from sep skip m s <> [].
Proof.
  revert skip m. induction s as [|c s IH]; intros skip m; [done|].
  cbn [split_from]. destruct skip; [|apply IH].
  destruct (may_split m && String.prefix sep (String c s)); [done|].
  by destruct (split_from sep 0 m s).
Qed.

(** A character that starts no separator joins the current fragment. *)
Lemma split_from_keep sep m c s :
  String.prefix sep (String c s) = false ->
  exists h t, split_from sep 0 m s = h :: t
              /\ split_from sep 0 m (String c s) = String c h :: t.
Proof.
  intros Hp. cbn [split_from]. rewrite Hp, andb_false_r.
  pose proof (split_from_nonempty sep 0 m s).
  destruct (split_from sep 0 m s) as [|h t]; [done|]. by exists h, t.
Qed.

Lemma split_boundary_cut rest :
  split BOUNDARY None (BOUNDARY +:+ rest) = "" :: split BOUNDARY None rest.
Proof.
  unfold split. rewrite BOUNDARY_bytes.
  cbn [String.append split_from may_split one_split_less andb].
  by rewrite !prefix_cons, !Ascii.eqb_refl, prefix_empty.
Qed.

(** The bytes of a code point other than U+FFFD hold no boundary marker and
    start none: they all go to the current fragment. *)
Lemma split_boundary_keep c rest :
  code_point c = true -> c <> 0xFFFD%N ->
  exists h t, split BOUNDARY None rest = h :: t
              /\ split BOUNDARY None (utf8_encode_char c +:+ rest)
                 = (utf8_encode_char c +:+ h) :: t.
Proof.
  intros Hc Hne. apply code_point_bound in Hc. unfold split.
  pose proof (split_from_nonempty BOUNDARY 0 None rest) as Hrest.
  destruct (split_from BOUNDARY 0 None rest) as [|h t] eqn:E; [done|].
  exists h, t. split; [done|].
  assert (Hlead : forall b s, (b < 256)%N -> b <> 239%N ->
            String.prefix BOUNDARY (String (ascii_of_N b) s) = false).
  { intros b s Hb H239. rewrite BOUNDARY_bytes, prefix_cons.
    rewrite ascii_of_N_eqb by lia.
    by destruct (N.eqb_spec 239 b) as [<-|_]. }
  assert (Hkeep : forall b s h' t', (b < 256)%N -> b <> 239%N ->
            split_from BOUNDARY 0 None s = h' :: t' ->
            split_from BOUNDARY 0 None (String (ascii_of_N b) s)
            = String (ascii_of_N b) h' :: t').
  { intros b s h' t' Hb H239 Hs.
    destruct (split_from_keep BOUNDARY None _ s (Hlead b s Hb H239))
      as (h2 & t2 & E2 & ->). congruence. }
  unfold utf8_encode_char.
  destruct (N.ltb_spec c 0x80); [|destruct (N.ltb_spec c 0x800);
    [|destruct (N.ltb_spec c 0x10000)]]; cbn [String.append].
  - apply Hkeep; [lia | lia | done].
  - apply Hkeep; [div_lia | div_lia |].
    apply Hkeep; [div_lia | div_lia | done].
  - assert (H3 : String.prefix BOUNDARY
             (String (ascii_of_N (224 + c / 4096))
                (String (ascii_of_N (128 + (c / 64) mod 64))
                   (String (ascii_of_N (128 + c mod 64)) rest))) = false).
    { rewrite BOUNDARY_bytes, !prefix_cons, !ascii_of_N_eqb by div_lia.
      destruct (N.eqb_spec 239 (224 + c / 4096)); [|done].
      destruct (N.eqb_spec 191 (128 + (c / 64) mod 64)); [|done].
      destruct (N.eqb_spec 189 (128 + c mod 64)); [|done].
      exfalso. apply Hne. div_lia. }
    destruct (split_from_keep BOUNDARY None _ _ H3) as (h2 & t2 & E2 & ->).
    rewrite (Hkeep _ _ (String (ascii_of_N (128 + c mod 64)) h) t) in E2.
    + by injection E2 as <- <-.
    + div_lia.
    + div_lia.
    + apply Hkeep; [div_lia | div_lia | done].
  - apply Hkeep; [div_lia | div_lia |].
    apply Hkeep; [div_lia | div_lia |].
    apply Hkeep; [div_lia | div_lia |].
    apply Hkeep; [div_lia | div_lia | done].
Qed.

Lemma usplit_nonempty sep u : usplit sep u <> [].
Proof.
  induction u as [|c u IH]; cbn [usplit]; [done|].
  destruct (c =? sep)%N; [done|]. by destruct (usplit sep u).
Qed.

(** Cutting the bytes at the marker is cutting the text at U+FFFD. *)
Lemma split_boundary_encode (u : unicode) :
  forallb code_point u = true ->
  split BOUNDARY None (utf8_encode u) = map utf8_encode (usplit 0xFFFD u).
Proof.
  induction u as [|c u IH]; cbn [forallb utf8_encode usplit]; [done|].
  rewrite andb_true_iff. intros [Hc Hu]. specialize (IH Hu).
  destruct (N.eqb_spec c 0xFFFD) as [->|Hne].
  - change (utf8_encode_char 65533) with BOUNDARY.
    by rewrite split_boundary_cut, IH.
  - destruct (split_boundary_keep c (utf8_encode u) Hc Hne)
      as (h & t & E & ->).
    rewrite IH in E. pose proof (usplit_nonempty 0xFFFD u).
    destruct (usplit 65533 u) as [|h' t']; [done|].
    cbn [map] in *. by injection E as <- <-.
Qed.

Lemma usplit_code_points sep (u : unicode) :
  forallb code_point u = true ->
  forallb (forallb code_point) (usplit sep u) = true.
Proof.
  induction u as [|c u IH]; cbn [forallb usplit]; [done|].
  rewrite andb_true_iff. intros [Hc Hu]. specialize (IH Hu).
  destruct (c =? sep)%N; [done|].
  destruct (usplit sep u) as [|h t]; cbn [forallb] in *; [by rewrite Hc|].
  apply andb_true_iff in IH as [Hh Ht]. by rewrite Hc, Hh, Ht.
Qed.

Lemma decode_all_encode (parts : list unicode) :
  forallb (forallb code_point) parts = true ->
  decode_all (map utf8_encode parts) = Some parts.
Proof.
  induction parts as [|p parts IH]; cbn [forallb map decode_all]; [done|].
  rewrite andb_true_iff. intros [Hp Hparts].
  by rewrite (utf8_decode_encode p Hp), (IH Hparts).
Qed.

Lemma yield_texts_filter pairs :
  yield_texts pairs
  = map snd (filter (fun p => declared_length_matches (fst p) (snd p) = true)
               pairs).
Proof.
  induction pairs as [|[text_length text] pairs IH]; [done|].
  cbn [yield_texts].
  destruct (declared_length_matches text_length text) eqn:E.
  - rewrite filter_cons_True by done. cbn [map snd]. by rewrite IH.
  - rewrite filter_cons_False by (cbn; congruence). exact IH.
Qed.

(** ** Boundary framing *)

Lemma stride2_tail {A} (y : A) (r : list A) :
  stride2 (y :: r) = y :: stride2 (drop 1 r).
Proof. by destruct r. Qed.

Lemma izip_stride2_lookup {A} (l : list A) (k : nat) (a b : A) :
  izip (stride2 l) (stride2 (drop 1 l)) !! k = Some (a, b)
  <-> l !! (2 * k) = Some a /\ l !! (2 * k + 1) = Some b.
Proof.
  revert l. induction k as [|k IH]; intros [|x [|y r]];
    try (split;
         [ intros H; cbn in H; discriminate H
         | intros [H1 H2]; apply lookup_lt_Some in H1, H2; cbn in *; lia ]).
  - change (drop 1 (x :: y :: r)) with (y :: r).
    rewrite (stride2_tail y r). cbn.
    split; [intros H; by injection H as -> -> | intros [H1 H2]; congruence].
  - change (drop 1 (x :: y :: r)) with (y :: r).
    rewrite (stride2_tail y r). cbn [stride2 izip].
    replace (2 * S k) with (S (S (2 * k))) by lia.
    cbn [lookup list_lookup]. apply IH.
Qed.

(** The pairs the loop visits are the fragments 1 and 2, 3 and 4, ... *)
Lemma framed_pairs_lookup {A} (parts : list A) (k : nat) (a b : A) :
  izip (stride2 (drop 1 parts)) (stride2 (drop 2 parts)) !! k = Some (a, b)
  <-> parts !! (2 * k + 1) = Some a /\ parts !! (2 * k + 2) = Some b.
Proof.
  replace (drop 2 parts) with (drop 1 (drop 1 parts))
    by (rewrite drop_drop; reflexivity).
  rewrite izip_stride2_lookup, !lookup_drop.
  replace (1 + 2 * k) with (2 * k + 1) by lia.
  replace (1 + (2 * k + 1)) with (2 * k + 2) by lia. done.
Qed.

Lemma deframe_encoded (body : unicode) :
  forallb code_point body = true ->
  let parts := usplit 0xFFFD body in
  _yield_text_from_framed_data (utf8_encode body)
  = inr (yield_texts (izip (stride2 (drop 1 parts)) (stride2 (drop 2 parts)))).
Proof.
  intros Hbody parts. unfold _yield_text_from_framed_data.
  rewrite (split_boundary_encode body Hbody).
  by rewrite (decode_all_encode _ (usplit_code_points _ body Hbody)).
Qed.

(** C6. For the UTF-8 encoding of any text, the deframer cuts the text at
    U+FFFD, pairs fragment 1 with 2, 3 with 4 and so on, and yields, in
    order, the second fragment of exactly the pairs whose first fragment is
    the decimal form of the second's length in characters; the other pairs
    are passed over and nothing is raised. The body
    U+FFFD 5 U+FFFD hello U+FFFD 3 U+FFFD bye U+FFFD gives [hello] and [bye]. *)
Theorem deframe_yields_matching (body : unicode) :
  forallb code_point body = true ->
  let parts := usplit 0xFFFD body in
  let pairs := izip (stride2 (drop 1 parts)) (stride2 (drop 2 parts)) in
  let marker := [0xFFFD%N] in
  _yield_text_from_framed_data (utf8_encode body)
    = inr (map snd
             (filter (fun p => fst p = unicode_of_str
                                        (str_int (Z.of_nat (length (snd p)))))
                pairs))
  /\ (forall k a b,
        pairs !! k = Some (a, b)
        <-> parts !! (2 * k + 1) = Some a /\ parts !! (2 * k + 2) = Some b)
  /\ _yield_text_from_framed_data
       (utf8_encode (marker ++ unicode_of_str "5" ++ marker
                       ++ unicode_of_str "hello" ++ marker
                       ++ unicode_of_str "3" ++ marker
                       ++ unicode_of_str "bye" ++ marker)%list)
     = inr [unicode_of_str "hello"; unicode_of_str "bye"]
  /\ _yield_text_from_framed_data
       (utf8_encode (marker ++ unicode_of_str "4" ++ marker
                       ++ unicode_of_str "hello" ++ marker
                       ++ unicode_of_str "3" ++ marker
                       ++ unicode_of_str "bye" ++ marker)%list)
     = inr [unicode_of_str "bye"].
Proof.
  intros Hbody parts pairs marker.
  split; [|split; [|split; vm_compute; reflexivity]].
  - rewrite (deframe_encoded body Hbody). fold parts. fold pairs.
    rewrite yield_texts_filter. f_equal. f_equal.
    apply list_filter_iff. intros [text_length text].
    unfold declared_length_matches. cbn [fst snd].
    by rewrite bool_decide_eq_true.
  - intros k a b. apply framed_pairs_lookup.
Qed.

(** Bytes that are no UTF-8 make the list comprehension raise. *)
Example deframe_invalid_utf8 :
  _yield_text_from_framed_data (String (ascii_of_N 255) "")
  = inl UnicodeDecodeError.
Proof. reflexivity. Qed.

Lemma deframe_yields_matching_witness :
  let body := ([0xFFFD; 49; 0xFFFD; 0x20AC; 0xFFFD; 50; 0xFFFD; 97]%N) in
  forallb code_point body = true
  /\ _yield_text_from_framed_data (utf8_encode body) = inr [[0x20AC%N]].
Proof.
  intros body. split; [reflexivity|].
  destruct (deframe_yields_matching body eq_refl) as [-> _].
  vm_compute. reflexivity.
Defined.

(** ** Negotiation *)

Lemma negotiation_failure_contains client server :
  contains (negotiation_failure client server) (join ", " client)
  /\ contains (negotiation_failure client server) (join ", " server).
Proof.
  unfold negotiation_failure. cbn [join]. split.
  - exists "could not negotiate a transport: client supports ",
           (" but server supports " +:+ join ", " server).
    simpl. by rewrite append_assoc.
  - exists ("could not negotiate a transport: client supports "
              +:+ join ", " client +:+ " but server supports "), "".
    simpl. by rewrite !append_assoc, append_empty_r.
Qed.

Lemma transport_classes_known name :
  name ∈ TRANSPORTS ->
  exists cls, transport_classes name = Some cls /\ transport_name cls = name.
Proof.
  unfold TRANSPORTS. rewrite !elem_of_cons, elem_of_nil.
  intros [->|[->|[->|[]]]]; eexists; (split; [reflexivity|reflexivity]).
Qed.

Lemma transport_classes_name name cls :
  transport_classes name = Some cls -> transport_name cls = name.
Proof.
  unfold transport_classes.
  destruct (String.eqb_spec name "websocket") as [->|_];
    [by intros [= <-]|].
  destruct (String.eqb_spec name "xhr-polling") as [->|_];
    [by intros [= <-]|].
  destruct (String.eqb_spec name "jsonp-polling") as [->|_];
    [by intros [= <-]|done].
Qed.

Lemma transport_classes_unknown name :
  transport_classes name = None -> name ∉ TRANSPORTS.
Proof.
  intros Hnone Hin.
  destruct (transport_classes_known name Hin) as (cls & Hcls & _). congruence.
Qed.

Section NegotiationFacts.
Context {kwargs callback : Type}.
Variable create_connection : string -> socket_result.

(** The loop stops at the first entry that the server's list holds. *)
Lemma negotiate_from_cases all_client (s : session) secure base_url
    (kw : kwargs) remaining :
  (exists before name after,
      remaining = (before ++ name :: after)%list
      /\ Forall (fun x => x ∉ server_supported_transports s) before
      /\ name ∈ server_supported_transports s
      /\ negotiate_from (callback := callback) create_connection all_client
           s secure base_url kw remaining
         = match transport_classes name with
           | Some cls => construct create_connection cls s secure base_url kw
           | None => inl (KeyError name)
           end)
  \/ (Forall (fun x => x ∉ server_supported_transports s) remaining
      /\ negotiate_from (callback := callback) create_connection all_client
           s secure base_url kw remaining
         = inl (SocketIOError
                  (negotiation_failure all_client
                     (server_supported_transports s)))).
Proof.
  induction remaining as [|name rest IH]; cbn [negotiate_from].
  - right. by split.
  - case_bool_decide as Hin.
    + left. exists [], name, rest. by repeat split.
    + destruct IH as [(before & n & after & -> & Hb & Hn & Heq)|[Hnone Heq]].
      * left. exists (name :: before), n, after.
        repeat split; try done. by constructor.
      * right. split; [by constructor | done].
Qed.
End NegotiationFacts.

(** C7 as stated fails: the first common entry is final. When it is
    [websocket] and the connection cannot be opened, the negotiator raises
    the connection error although the next entry would do; when it has no
    constructor, the negotiator raises [KeyError]. Neither is an instance or
    a negotiation error. *)
Lemma negotiate_not_always_instance :
  _negotiate_transport (callback := unit) (fun _ => SocketError "refused")
    ["websocket"; "xhr-polling"] (Session "4d2f" ["websocket"; "xhr-polling"])
    false "localhost:8000" tt
  = inl (SocketIOConnectionError "refused")
  /\ _negotiate_transport (callback := unit) (fun _ => Connected)
       ["htmlfile"; "websocket"]
       (Session "4d2f" ["websocket"; "htmlfile"; "xhr-polling"])
       false "localhost:8000" tt
     = inl (KeyError "htmlfile").
Proof. split; reflexivity. Qed.

(** C7, as the code has it. The negotiator stops at the first entry of the
    client's list that the server's list holds. For [xhr-polling] and
    [jsonp-polling] it returns a new instance of that class, with its URL;
    for [websocket] it returns a new instance when the connection opens,
    raises [SocketIOConnectionError] when opening it raises [socket.timeout]
    or [socket.error], and lets any other exception through; for a name
    that is none of the three it raises [KeyError]. When no entry of the
    client's list is in the server's, it raises a [SocketIOError] whose
    message contains both lists. *)
Theorem negotiate_first_common {kwargs callback : Type}
    (create_connection : string -> socket_result)
    (client_supported_transports : list string) (s : session)
    (secure : bool) (base_url : string) (kw : kwargs) :
  let result := _negotiate_transport (callback := callback) create_connection
                  client_supported_transports s secure base_url kw in
  let http := if secure then "https" else "http" in
  let ws := if secure then "wss" else "ws" in
  (exists before name after,
      client_supported_transports = (before ++ name :: after)%list
      /\ Forall (fun x => x ∉ server_supported_transports s) before
      /\ name ∈ server_supported_transports s
      /\ match transport_classes name with
         | Some WebsocketTransport =>
             name = "websocket"
             /\ match create_connection
                        (transport_url ws base_url "websocket" s) with
                | Connected =>
                    result
                    = inr (init (Websocket
                                   (transport_url ws base_url "websocket" s)))
                | SocketTimeout e => result = inl (SocketIOConnectionError e)
                | SocketError e => result = inl (SocketIOConnectionError e)
                | OtherException e => result = inl (Uncaught e)
                end
         | Some XHR_PollingTransport =>
             name = "xhr-polling"
             /\ result
                = inr (init (XHR_Polling
                               (transport_url http base_url "xhr-polling" s)
                               true kw))
         | Some JSONP_PollingTransport =>
             name = "jsonp-polling"
             /\ result
                = inr (init (JSONP_Polling
                               (transport_url http base_url "jsonp-polling" s)
                               true kw 0))
         | None => (name ∉ TRANSPORTS) /\ result = inl (KeyError name)
         end)
  \/ (Forall (fun x => x ∉ server_supported_transports s)
        client_supported_transports
      /\ exists msg,
           result = inl (SocketIOError msg)
           /\ contains msg (join ", " client_supported_transports)
           /\ contains msg (join ", " (server_supported_transports s))).
Proof.
  intros result http ws. unfold result, _negotiate_transport.
  destruct (negotiate_from_cases (callback := callback) create_connection
              client_supported_transports s secure base_url kw
              client_supported_transports)
    as [(before & name & after & Hc & Hb & Hn & Heq)|[Hnone Heq]].
  - left. exists before, name, after. repeat (split; [done|]).
    rewrite Heq. destruct (transport_classes name) as [cls|] eqn:Hcls.
    + apply transport_classes_name in Hcls.
      destruct cls; cbn [construct transport_name] in *;
        (split; [done|]); [|reflexivity|reflexivity].
      unfold _WebsocketTransport. fold ws.
      by destruct (create_connection _).
    + split; [by apply transport_classes_unknown | done].
  - right. split; [done|]. eexists. split; [exact Heq|].
    apply negotiation_failure_contains.
Qed.

Example negotiate_xhr_polling :
  _negotiate_transport (callback := unit) (fun _ => Connected)
    ["websocket"; "xhr-polling"] (Session "4d2f" ["xhr-polling"]) false
    "localhost:8000" tt
  = inr (init (XHR_Polling "http://localhost:8000/xhr-polling/4d2f" true tt)).
Proof. reflexivity. Qed.

(** The spec's failing negotiation, and a name outside the dict. *)
Example negotiate_no_common :
  _negotiate_transport (callback := unit) (fun _ => Connected)
    ["websocket"] (Session "4d2f" ["xhr-polling"]) false "localhost:8000" tt
  = inl (SocketIOError
           "could not negotiate a transport: client supports websocket but server supports xhr-polling").
Proof. reflexivity. Qed.

Example negotiate_unknown_name :
  _negotiate_transport (callback := unit) (fun _ => Connected)
    ["htmlfile"; "websocket"] (Session "4d2f" ["websocket"; "htmlfile"])
    false "localhost:8000" tt
  = inl (KeyError "htmlfile").
Proof. reflexivity. Qed.

(** * Further properties *)

(** ** Decoding any text *)

Lemma join_cons_char sep c h t :
  join sep (String c h :: t) = String c (join sep (h :: t)).
Proof. by destruct t. Qed.

Lemma join_cons_more sep x h t :
  join sep (x :: h :: t) = x +:+ sep +:+ join sep (h :: t).
Proof. reflexivity. Qed.

Lemma join_split_colon m s : join ":" (split ":" m s) = s.
Proof.
  unfold split. revert m. induction s as [|c s IH]; intros m; [done|].
  cbn [split_from]. rewrite prefix_colon.
  destruct (may_split m && Ascii.eqb c ":") eqn:E.
  - apply andb_true_iff in E as [_ E]. apply Ascii.eqb_eq in E as ->.
    pose proof (split_from_nonempty ":" 0 (one_split_less m) s) as Hne.
    specialize (IH (one_split_less m)). change (String.length ":" - 1) with 0.
    destruct (split_from ":" 0 (one_split_less m) s) as [|h t]; [done|].
    by rewrite join_cons_more, IH.
  - pose proof (split_from_nonempty ":" 0 m s) as Hne. specialize (IH m).
    destruct (split_from ":" 0 m s) as [|h t]; [done|].
    by rewrite join_cons_char, IH.
Qed.

Lemma first_colon s :
  1 <= count_char ":" s ->
  exists a rest,
    s = a +:+ String ":" rest /\ has_char ":" a = false
    /\ count_char ":" s = S (count_char ":" rest).
Proof.
  induction s as [|c s IH]; cbn [count_char]; [lia|].
  destruct (Ascii.eqb c ":") eqn:E.
  - intros _. apply Ascii.eqb_eq in E as ->. by exists "", s.
  - intros H. destruct IH as (a & rest & -> & Ha & Hn); [lia|].
    exists (String c a), rest. cbn [has_char]. by rewrite E.
Qed.

Lemma split_three_colons text :
  3 <= count_char ":" text ->
  exists c i p d,
    split ":" (Some 3) text = [c; i; p; d]
    /\ text = c +:+ String ":" (i +:+ String ":" (p +:+ String ":" d))
    /\ has_char ":" c = false /\ has_char ":" i = false
    /\ has_char ":" p = false.
Proof.
  intros H.
  destruct (first_colon text) as (c & r1 & -> & Hc & E1); [lia|].
  destruct (first_colon r1) as (i & r2 & -> & Hi & E2); [lia|].
  destruct (first_colon r2) as (p & d & -> & Hp & E3); [lia|].
  exists c, i, p, d. repeat split; try done.
  rewrite !split_colon_field by done. unfold split.
  by rewrite split_from_exhausted.
Qed.

(** X1. A text with three or more [':'] is decoded to four fields that are
    all present, whatever was decoded before it: the first three hold no
    [':'], and the four joined by [':'] are the text again. *)
Theorem recv_packet_full_text (vars : packet) (text : string)
    (rest : list recv_unit) :
  3 <= count_char ":" text ->
  exists c i p d,
    recv_packet_loop vars (Text text :: rest)
    = (Some c, Some i, Some p, Some d)
        :: recv_packet_loop (Some c, Some i, Some p, Some d) rest
    /\ join ":" [c; i; p; d] = text
    /\ has_char ":" c = false /\ has_char ":" i = false
    /\ has_char ":" p = false.
Proof.
  intros H.
  destruct (split_three_colons text H) as (c & i & p & d & Hs & Ht & Hc & Hi & Hp).
  exists c, i, p, d. split; [|split; [by rewrite <- Hs, join_split_colon|done]].
  destruct vars as [[[c0 i0] p0] d0]. cbn [recv_packet_loop]. by rewrite Hs.
Qed.

Lemma recv_packet_full_text_witness :
  3 <= count_char ":" "5:1+:/chat:{a:1}"
  /\ exists c i p d,
       recv_packet_loop (Some "3", None, None, None) [Text "5:1+:/chat:{a:1}"]
       = [(Some c, Some i, Some p, Some d)]
       /\ join ":" [c; i; p; d] = "5:1+:/chat:{a:1}"
       /\ has_char ":" c = false /\ has_char ":" i = false
       /\ has_char ":" p = false.
Proof.
  assert (H : 3 <= count_char ":" "5:1+:/chat:{a:1}") by (vm_compute; lia).
  split; [exact H|].
  exact (recv_packet_full_text (Some "3", None, None, None)
           "5:1+:/chat:{a:1}" [] H).
Defined.

(** X2. What [send_packet] puts on the wire always decodes to four present
    fields, of which the first is [str(code)]; the other three, joined by
    [':'], are the id, path and data that were sent, joined by [':']. *)
Theorem sent_text_decodes (code : Z) (packet_id path data : string) :
  exists i p d,
    recv_packet [Text (packet_text code packet_id path data)]
    = [(Some (str_int code), Some i, Some p, Some d)]
    /\ join ":" [i; p; d] = join ":" [packet_id; path; data].
Proof.
  destruct (split_three_colons _ (packet_text_colons code packet_id path data))
    as (c & i & p & d & Hs & Ht & Hc & Hi & Hp).
  assert (Hcode : c = str_int code /\
            i +:+ String ":" (p +:+ String ":" d)
            = packet_id +:+ String ":" (path +:+ String ":" data)).
  { rewrite packet_text_unfold in Ht.
    assert (Hn : has_char ":" (str_int code) = false)
      by (by apply has_char_str_int).
    clear Hs. revert c Hc Ht Hn.
    induction (str_int code) as [|a s IH]; intros [|b c] Hc Ht Hn;
      cbn in Ht, Hc, Hn.
    - by injection Ht as ->.
    - injection Ht as <- _. by rewrite Ascii.eqb_refl in Hc.
    - injection Ht as -> _. by rewrite Ascii.eqb_refl in Hn.
    - injection Ht as -> Ht.
      destruct (Ascii.eqb b ":"); [done|].
      destruct (IH c Hc Ht Hn) as [-> E]. done. }
  destruct Hcode as [-> E]. exists i, p, d. split; [|exact E].
  unfold recv_packet. cbn [recv_packet_loop]. by rewrite Hs.
Qed.

(** X3. A batch of one text, which is what the websocket transport
    receives, is decoded by its number of [':']: none gives the code alone,
    two give code, id and path with no data, three or more give four fields,
    and exactly one gives four [None]. *)
Theorem recv_packet_single (text : string) :
  match count_char ":" text with
  | 0 => recv_packet [Text text] = [(Some text, None, None, None)]
  | 1 => recv_packet [Text text] = [(None, None, None, None)]
  | 2 => exists c i p,
           recv_packet [Text text] = [(Some c, Some i, Some p, None)]
           /\ join ":" [c; i; p] = text
  | _ => exists c i p d,
           recv_packet [Text text] = [(Some c, Some i, Some p, Some d)]
           /\ join ":" [c; i; p; d] = text
  end.
Proof.
  destruct (count_char ":" text) as [|[|[|n]]] eqn:E.
  - assert (H : has_char ":" text = false).
    { clear -E. induction text as [|c s IH]; cbn in *; [done|].
      destruct (Ascii.eqb c ":"); [done | by apply IH]. }
    unfold recv_packet. cbn [recv_packet_loop].
    by rewrite (split_colon_last _ _ H).
  - pose proof (split_colon_length 3 text) as Hl. rewrite E in Hl.
    unfold recv_packet. cbn [recv_packet_loop].
    destruct (split ":" (Some 3) text) as [|a [|b [|c l]]]; by cbn in Hl.
  - pose proof (split_colon_length 3 text) as Hl. rewrite E in Hl.
    pose proof (join_split_colon (Some 3) text) as Hj.
    unfold recv_packet. cbn [recv_packet_loop].
    destruct (split ":" (Some 3) text) as [|a [|b [|c [|d l]]]];
      cbn in Hl; try done.
    by exists a, b, c.
  - destruct (split_three_colons text) as (c & i & p & d & Hs & _); [lia|].
    exists c, i, p, d. split; [|by rewrite <- Hs, join_split_colon].
    unfold recv_packet. cbn [recv_packet_loop]. by rewrite Hs.
Qed.

(** X4. A unit that is no text yields nothing and changes nothing: a batch
    is decoded as the batch of its texts is. *)
Theorem recv_packet_ignores_non_text (units : list recv_unit) :
  recv_packet units = recv_packet (List.filter is_text units).
Proof.
  unfold recv_packet. generalize (None : option string, None : option string,
    None : option string, None : option string).
  induction units as [|[text|] units IH]; intros vars; [done| |].
  - destruct vars as [[[c i] p] d]. cbn [List.filter is_text recv_packet_loop].
    by rewrite IH.
  - cbn [List.filter is_text recv_packet_loop]. apply IH.
Qed.

(** ** Fields that stay *)

Lemma keeps_fields_refl p : keeps_fields p p.
Proof. by destruct p as [[[c i] q] d]. Qed.

Lemma keeps_fields_trans p q r :
  keeps_fields p q -> keeps_fields q r -> keeps_fields p r.
Proof.
  destruct p as [[[c1 i1] p1] d1], q as [[[c2 i2] p2] d2],
    r as [[[c3 i3] p3] d3]. cbn. tauto.
Qed.

Lemma recv_packet_step_keeps vars text :
  keeps_fields vars
    (let '(code, packet_id, path, data) := vars in
     match split ":" (Some 3) text with
     | [c; i; p; d] => (Some c, Some i, Some p, Some d)
     | [c; i; p] => (Some c, Some i, Some p, data)
     | [c] => (Some c, packet_id, path, data)
     | _ => (code, packet_id, path, data)
     end).
Proof.
  destruct vars as [[[c0 i0] p0] d0].
  destruct (split ":" (Some 3) text) as [|a [|b [|c [|d [|e l]]]]]; cbn;
    repeat split; eauto.
Qed.

Lemma recv_packet_loop_keeps vars units :
  Forall (keeps_fields vars) (recv_packet_loop vars units).
Proof.
  revert vars. induction units as [|[text|] units IH]; intros vars.
  - constructor.
  - pose proof (recv_packet_step_keeps vars text) as Hstep.
    destruct vars as [[[c0 i0] p0] d0]. cbn [recv_packet_loop].
    cbn zeta in Hstep. set (vars' := match split ":" (Some 3) text with
                                     | [] => _ | _ => _ end) in *.
    constructor; [exact Hstep|].
    eapply Forall_impl; [apply IH|]. intros q. by apply keeps_fields_trans.
  - apply IH.
Qed.

Lemma recv_packet_loop_monotone vars units (i j : nat) (p q : packet) :
  i <= j ->
  recv_packet_loop vars units !! i = Some p ->
  recv_packet_loop vars units !! j = Some q ->
  keeps_fields p q.
Proof.
  revert vars i j. induction units as [|[text|] units IH]; intros vars i j Hij.
  - done.
  - destruct vars as [[[c0 i0] p0] d0]. cbn [recv_packet_loop].
    set (vars' := match split ":" (Some 3) text with
                  | [] => _ | _ => _ end).
    destruct i as [|i], j as [|j]; cbn [lookup list_lookup]; try lia.
    + intros [= <-] [= <-]. apply keeps_fields_refl.
    + intros [= <-] Hq.
      pose proof (recv_packet_loop_keeps vars' units) as Hall.
      rewrite Forall_forall in Hall. apply Hall.
      by eapply list_elem_of_lookup_2.
    + apply IH. lia.
  - cbn [recv_packet_loop]. by apply IH.
Qed.

(** X5. Within one batch a field never goes back to [None]: a tuple has
    every field that a tuple yielded before it has. *)
Theorem recv_packet_fields_stay (units : list recv_unit) (i j : nat)
    (p q : packet) :
  i <= j ->
  recv_packet units !! i = Some p ->
  recv_packet units !! j = Some q ->
  keeps_fields p q.
Proof. apply recv_packet_loop_monotone. Qed.

Lemma recv_packet_fields_stay_witness :
  let units := [Text "5:1+:/chat:x"; Text "a:b"; Text "2::"; Text "8"] in
  0 <= 3
  /\ recv_packet units !! 0 = Some (Some "5", Some "1+", Some "/chat", Some "x")
  /\ recv_packet units !! 3 = Some (Some "8", Some "", Some "", Some "x")
  /\ keeps_fields (Some "5", Some "1+", Some "/chat", Some "x")
       (Some "8", Some "", Some "", Some "x").
Proof.
  intros units.
  assert (H0 : recv_packet units !! 0
               = Some (Some "5", Some "1+", Some "/chat", Some "x"))
    by reflexivity.
  assert (H3 : recv_packet units !! 3
               = Some (Some "8", Some "", Some "", Some "x"))
    by reflexivity.
  assert (Hle : 0 <= 3) by lia.
  split; [exact Hle|]. split; [exact H0|]. split; [exact H3|].
  exact (recv_packet_fields_stay units 0 3 _ _ Hle H0 H3).
Defined.

(** ** [ack] *)

Lemma packet_roundtrip_fields code packet_id path data :
  has_char ":" packet_id = false ->
  has_char ":" path = false ->
  recv_packet [Text (packet_text code packet_id path data)]
  = [(Some (str_int code), Some packet_id, Some path, Some data)].
Proof.
  intros Hid Hpath. unfold recv_packet. cbn [recv_packet_loop].
  by rewrite (split_packet_text code packet_id path data Hid Hpath).
Qed.

Lemma rstrip_snoc c s : rstrip c (s +:+ String c "") = rstrip c s.
Proof.
  induction s as [|a s IH].
  - cbn. by rewrite Ascii.eqb_refl.
  - change (String a s +:+ String c "") with (String a (s +:+ String c "")).
    cbn [rstrip]. by rewrite IH.
Qed.

(** X6. [ack] sends code 6 with no id and no path; the data are the packet
    id without its trailing ['+'], followed, when there are arguments, by
    ['+'] and their JSON list. The text decodes to these data whatever they
    hold, and an id gives the same packet with and without a trailing
    ['+']. *)
Theorem ack_wire_text {callback conn : Type}
    (send : string -> conn -> (exn + unit) * conn)
    (packet_id : string) (args : list json) (n : Z)
    (t : transport callback conn) :
  let data := match args with
              | [] => rstrip "+" packet_id
              | _ => rstrip "+" packet_id +:+ "+" +:+ dumps (JList args)
              end in
  ack send packet_id args t = self_send send ("6:::" +:+ data) t
  /\ recv_packet [Text ("6:::" +:+ data)]
     = [(Some "6", Some "", Some "", Some data)]
  /\ ack send (packet_id +:+ "+") args t = ack send packet_id args t
  /\ ack send (str_int n +:+ "+") [] t = self_send send ("6:::" +:+ str_int n) t.
Proof.
  intros data. split; [by destruct args|]. split.
  { exact (packet_roundtrip_fields 6 "" "" data eq_refl eq_refl). }
  split.
  { unfold ack. by rewrite rstrip_snoc. }
  unfold ack. rewrite rstrip_appended by (by apply has_char_str_int). done.
Qed.

(** ** Ids are fresh *)

Section FreshIds.
Context {callback conn : Type}.
Variable send : string -> conn -> (exn + unit) * conn.

Implicit Types (t : transport callback conn) (c : call callback).

Lemma counted_insert f t t' :
  counted t ->
  _packet_id t' = (_packet_id t + 1)%Z ->
  _callback_by_packet_id t'
  = <[str_int (_packet_id t + 1) := f]> (_callback_by_packet_id t) ->
  counted t'.
Proof.
  intros [Hpos Hkeys] Hid Hreg. split; [lia|].
  intros k g. rewrite Hreg, Hid.
  destruct (decide (str_int (_packet_id t + 1) = k)) as [<-|Hne].
  - intros _. exists (_packet_id t + 1)%Z. split; [done | lia].
  - rewrite lookup_insert_ne by done. intros Hk.
    destruct (Hkeys k g Hk) as (n & -> & Hn). exists n. split; [done | lia].
Qed.

Lemma counted_subset t t' :
  counted t ->
  _packet_id t' = _packet_id t ->
  (forall k g, _callback_by_packet_id t' !! k = Some g ->
               _callback_by_packet_id t !! k = Some g) ->
  counted t'.
Proof.
  intros [Hpos Hkeys] Hid Hsub. split; [lia|].
  intros k g Hk. rewrite Hid. eauto.
Qed.

Lemma perform_counted c t : counted t -> counted (perform send c t).
Proof.
  intros Ht.
  destruct c as [f|pid|code path data cb|path data cb|];
    cbn [perform]; unfold discard.
  - by eapply counted_insert.
  - unfold get_ack_callback.
    destruct (_callback_by_packet_id t !! pid) eqn:E; cbn [snd]; [|done].
    eapply counted_subset; [exact Ht | done |].
    intros k g. cbn [_callback_by_packet_id]. rewrite lookup_delete_Some.
    by intros [_ ?].
  - pose proof (send_packet_state send code path data cb t) as H.
    destruct cb as [f|]; destruct H as [Hid Hreg].
    + by eapply counted_insert.
    + eapply counted_subset; [exact Ht | done |]. intros k g. by rewrite Hreg.
  - pose proof (message_state send path data cb t) as H.
    destruct cb as [f|]; destruct H as [Hid Hreg].
    + by eapply counted_insert.
    + eapply counted_subset; [exact Ht | done |]. intros k g. by rewrite Hreg.
  - pose proof (send_packet_state send 2 "" "" None t) as [Hid Hreg].
    eapply counted_subset; [exact Ht | done |]. intros k g.
    unfold send_heartbeat. by rewrite Hreg.
Qed.

Lemma perform_all_counted (calls : list (call callback)) t :
  counted t -> counted (perform_all send calls t).
Proof.
  revert t. unfold perform_all.
  induction calls as [|c calls IH]; intros t Ht; cbn [fold_left]; [done|].
  apply IH. by apply perform_counted.
Qed.

Lemma init_counted (c0 : conn) : counted (init (callback := callback) c0).
Proof. split; [done|]. intros k f. cbn. by rewrite lookup_empty. Qed.

Lemma counted_next_free t :
  counted t -> _callback_by_packet_id t !! str_int (_packet_id t + 1) = None.
Proof.
  intros [_ Hkeys].
  destruct (_callback_by_packet_id t !! str_int (_packet_id t + 1)) as [f|] eqn:E;
    [|done].
  destruct (Hkeys _ _ E) as (n & Hn & Hle). apply str_int_inj in Hn. lia.
Qed.
End FreshIds.

(** X7. On a transport reached by any calls, [set_ack_callback] stores the
    callback under a key that was free: no callback that is waiting is
    overwritten, every one is still there afterwards, and there is one more
    of them. *)
Theorem set_ack_callback_fresh {callback conn : Type}
    (send : string -> conn -> (exn + unit) * conn) (c0 : conn)
    (calls : list (call callback)) (f : callback) :
  let t := perform_all send calls (init c0) in
  let t1 := snd (set_ack_callback f t) in
  _callback_by_packet_id t !! str_int (_packet_id t + 1) = None
  /\ _callback_by_packet_id t ⊆ _callback_by_packet_id t1
  /\ size (_callback_by_packet_id t1) = S (size (_callback_by_packet_id t)).
Proof.
  intros t t1.
  assert (Hfree : _callback_by_packet_id t !! str_int (_packet_id t + 1) = None).
  { apply (counted_next_free t).
    apply (perform_all_counted send), init_counted. }
  split; [exact Hfree|]. split.
  - unfold t1. cbn. by apply insert_subseteq.
  - unfold t1. cbn. by apply map_size_insert_None.
Qed.

(** X8. On a transport reached by any calls, registering a callback and
    claiming it under the digits of the returned id gives the callback back
    and leaves the registry exactly as it was; only the counter has moved. *)
Theorem set_then_get_restores {callback conn : Type}
    (send : string -> conn -> (exn + unit) * conn) (c0 : conn)
    (calls : list (call callback)) (f : callback) :
  let t := perform_all send calls (init c0) in
  let n := (_packet_id t + 1)%Z in
  fst (set_ack_callback f t) = inr (str_int n +:+ "+")
  /\ get_ack_callback (str_int n) (snd (set_ack_callback f t))
     = (inr f, {| _packet_id := n;
                  _callback_by_packet_id := _callback_by_packet_id t;
                  connection := connection t |}).
Proof.
  intros t n. split; [reflexivity|].
  unfold get_ack_callback. cbn [set_ack_callback snd _callback_by_packet_id
    _packet_id connection]. fold n. rewrite lookup_insert_eq.
  rewrite delete_insert_id; [done|].
  apply (counted_next_free t).
  apply (perform_all_counted send), init_counted.
Qed.

(** X9. [has_ack_callback] tells whether some id can be claimed: it is
    false on a new transport, true after [set_ack_callback], and in any state
    true exactly when [get_ack_callback] returns for some id. *)
Theorem has_ack_callback_claimable {callback conn : Type}
    (t : transport callback conn) (f : callback) (c0 : conn) :
  (has_ack_callback t = true
   <-> exists packet_id g, fst (get_ack_callback packet_id t) = inr g)
  /\ has_ack_callback (init (callback := callback) c0) = false
  /\ has_ack_callback (snd (set_ack_callback f t)) = true.
Proof.
  split; [|split].
  - unfold has_ack_callback. rewrite negb_true_iff, bool_decide_eq_false.
    split.
    + intros Hne. destruct (map_choose _ Hne) as (k & g & Hk).
      exists k, g. unfold get_ack_callback. by rewrite Hk.
    + intros (k & g & Hk) Hempty. unfold get_ack_callback in Hk.
      rewrite Hempty, lookup_empty in Hk. discriminate Hk.
  - unfold has_ack_callback. cbn. by rewrite bool_decide_eq_true_2.
  - unfold has_ack_callback. cbn. rewrite negb_true_iff, bool_decide_eq_false.
    apply insert_non_empty.
Qed.

Lemma has_ack_callback_claimable_witness :
  let t := snd (set_ack_callback (callback := nat) 5 (init tt)) in
  has_ack_callback t = true
  /\ exists packet_id g, fst (get_ack_callback packet_id t) = inr g.
Proof.
  intros t.
  destruct (has_ack_callback_claimable t 0 tt) as [[H _] _].
  split; [reflexivity | exact (H eq_refl)].
Defined.

(** X10. [send_packet] registers the callback before it sends: whether
    [send] returns or raises, its outcome is the outcome of [send_packet],
    the callback can be claimed afterwards under the new counter value, and
    the counter has moved. Over a websocket whose socket fails, the exception
    is a [SocketIOConnectionError] that quotes the packet. *)
Theorem send_packet_registers_first {callback conn kwargs : Type}
    (send : string -> conn -> (exn + unit) * conn)
    (code : Z) (path data : string) (f : callback)
    (t : transport callback conn)
    (w : transport callback (concrete kwargs)) :
  let n := (_packet_id t + 1)%Z in
  let text := packet_text code (str_int n +:+ "+") path data in
  let t' := snd (send_packet send code path data (Some f) t) in
  fst (send_packet send code path data (Some f) t)
    = fst (send text (connection t))
  /\ _packet_id t' = n
  /\ fst (get_ack_callback (str_int n) t') = inr f
  /\ send_packet (Websocket_send true) code path data (Some f) w
     = (inl (SocketIOConnectionError
               ("could not send "
                  +:+ packet_text code (str_int (_packet_id w + 1) +:+ "+")
                        path data)),
        snd (set_ack_callback f w)).
Proof.
  intros n text t'.
  pose proof (send_packet_state send code path data (Some f) t) as [Hid Hreg].
  split; [|split; [exact Hid|split]].
  - unfold send_packet, bind, set_ack_callback, self_send. cbn [connection].
    fold n. fold text. by destruct (send text (connection t)).
  - unfold get_ack_callback. fold t' in Hreg. rewrite Hreg.
    fold n. by rewrite lookup_insert_eq.
  - reflexivity.
Qed.

(** X11. The id that [message] puts in a packet leads back to the callback:
    on a transport reached by any calls, and for a path without [':'], the
    text sent decodes to the id [str(n) + "+"], and claiming that id without
    its ['+'] on the state that [message] leaves returns the callback. *)
Theorem message_callback_correlates {callback conn : Type}
    (send : string -> conn -> (exn + unit) * conn) (c0 : conn)
    (calls : list (call callback)) (path : string) (data : json)
    (f : callback) :
  has_char ":" path = false ->
  let t := perform_all send calls (init c0) in
  let packet_id := str_int (_packet_id t + 1) +:+ "+" in
  let '(code, payload) := match data with
                          | JStr s => (3%Z, s)
                          | _ => (4%Z, dumps data)
                          end in
  message send path data (Some f) t
    = self_send send (packet_text code packet_id path payload)
        (snd (set_ack_callback f t))
  /\ recv_packet [Text (packet_text code packet_id path payload)]
     = [(Some (str_int code), Some packet_id, Some path, Some payload)]
  /\ fst (get_ack_callback (rstrip "+" packet_id)
            (snd (message send path data (Some f) t)))
     = inr f.
Proof.
  intros Hpath t packet_id.
  assert (Hid : has_char ":" packet_id = false).
  { unfold packet_id. rewrite has_char_app.
    by rewrite has_char_str_int. }
  assert (Hget : forall code payload,
            fst (get_ack_callback (rstrip "+" packet_id)
                   (snd (send_packet send code path payload (Some f) t)))
            = inr f).
  { intros code payload.
    pose proof (send_packet_state send code path payload (Some f) t)
      as [_ Hreg].
    unfold packet_id. rewrite rstrip_appended by (by apply has_char_str_int).
    unfold get_ack_callback. rewrite Hreg. by rewrite lookup_insert_eq. }
  destruct data as [|[|]|z|s|l|l];
    (split; [reflexivity|split; [by apply packet_roundtrip_fields|apply Hget]]).
Qed.

Lemma message_callback_correlates_witness :
  has_char ":" "/chat" = false
  /\ fst (get_ack_callback (rstrip "+" "2+")
            (snd (message (callback := nat) wire_send "/chat" (JStr "hi")
                    (Some 7)
                    (perform_all wire_send [SetAck 5] (init [])))))
     = inr 7.
Proof.
  split; [reflexivity|].
  exact (proj2 (proj2 (message_callback_correlates (callback := nat) wire_send
                         [] [SetAck 5] "/chat" (JStr "hi") 7 eq_refl))).
Defined.

(** ** Negotiation without a precondition *)

Section NegotiationCases.
Context {kwargs callback : Type}.
Variable create_connection : string -> socket_result.

Lemma construct_url cls (s : session) secure base_url (kw : kwargs)
    (tr : transport callback (concrete kwargs)) :
  construct create_connection cls s secure base_url kw = inr tr ->
  tr = init (connection tr)
  /\ class_of (connection tr) = cls
  /\ url_of (connection tr)
     = transport_url (scheme_of cls secure) base_url (transport_name cls) s
  /\ (cls <> WebsocketTransport ->
      forall b, connected_of b (connection tr) = true).
Proof.
  destruct cls; cbn [construct].
  - unfold _WebsocketTransport.
    destruct (create_connection _); [|done|done|done].
    intros [= <-]. by repeat split.
  - intros [= <-]. by repeat split.
  - intros [= <-]. by repeat split.
Qed.
End NegotiationCases.

(** X12. The first entry of the client's list that is in the server's list
    decides the negotiation alone: the negotiator returns what the
    constructor for that name returns, or raises [KeyError] when the name has
    no constructor, although a later entry may have one; without any common
    entry it raises [SocketIOError] with the message built from both
    lists. *)
Theorem negotiate_decided_by_first_common {kwargs callback : Type}
    (create_connection : string -> socket_result)
    (client_supported_transports : list string) (s : session)
    (secure : bool) (base_url : string) (kw : kwargs) :
  let result := _negotiate_transport (callback := callback) create_connection
                  client_supported_transports s secure base_url kw in
  (exists before name after,
      client_supported_transports = (before ++ name :: after)%list
      /\ Forall (fun x => x ∉ server_supported_transports s) before
      /\ name ∈ server_supported_transports s
      /\ result = match transport_classes name with
                  | Some cls =>
                      construct create_connection cls s secure base_url kw
                  | None => inl (KeyError name)
                  end)
  \/ (Forall (fun x => x ∉ server_supported_transports s)
        client_supported_transports
      /\ result = inl (SocketIOError
                         (negotiation_failure client_supported_transports
                            (server_supported_transports s)))).
Proof. intros result. apply negotiate_from_cases. Qed.

(** X13. A transport that the negotiator returns is of a class whose name is
    in both lists; its URL is [scheme://base_url/name/id] with the secure
    scheme exactly when [secure] is set; no callback is waiting on it and the
    first id it mints is ["1+"]; a polling transport is connected. *)
Theorem negotiated_transport_is_new {kwargs callback : Type}
    (create_connection : string -> socket_result)
    (client_supported_transports : list string) (s : session)
    (secure : bool) (base_url : string) (kw : kwargs)
    (tr : transport callback (concrete kwargs)) (f : callback) :
  _negotiate_transport create_connection client_supported_transports s secure
    base_url kw = inr tr ->
  let cls := class_of (connection tr) in
  transport_name cls ∈ client_supported_transports
  /\ transport_name cls ∈ server_supported_transports s
  /\ url_of (connection tr)
     = scheme_of cls secure +:+ "://" +:+ base_url +:+ "/"
         +:+ transport_name cls +:+ "/" +:+ id s
  /\ has_ack_callback tr = false
  /\ fst (set_ack_callback f tr) = inr "1+"
  /\ (cls <> WebsocketTransport ->
      forall b, connected_of b (connection tr) = true).
Proof.
  intros Hres cls.
  unfold _negotiate_transport in Hres.
  destruct (negotiate_from_cases (callback := callback) create_connection
              client_supported_transports s secure base_url kw
              client_supported_transports)
    as [(before & name & after & Hc & _ & Hn & Heq)|[_ Heq]];
    rewrite Hres in Heq; [|done].
  destruct (transport_classes name) as [cls'|] eqn:Hcls; [|done].
  apply transport_classes_name in Hcls. symmetry in Heq.
  destruct (construct_url create_connection cls' s secure base_url kw tr Heq)
    as (Hinit & Hclass & Hurl & Hconn).
  unfold cls. rewrite Hclass, Hcls.
  split; [rewrite Hc; set_solver|]. split; [done|].
  split; [by rewrite Hurl, <- Hcls|].
  rewrite Hinit. split; [|split; [reflexivity|]].
  - unfold has_ack_callback. cbn. by rewrite bool_decide_eq_true_2.
  - cbn [init connection]. exact Hconn.
Qed.

Lemma negotiated_transport_is_new_witness :
  let s := Session "4d2f" ["xhr-polling"; "htmlfile"] in
  let tr := init (XHR_Polling "https://example.org/xhr-polling/4d2f" true tt) in
  _negotiate_transport (callback := nat) (fun _ => SocketError "refused")
    ["websocket"; "xhr-polling"] s true "example.org" tt = inr tr
  /\ url_of (connection tr) = "https://example.org/xhr-polling/4d2f"
  /\ fst (set_ack_callback 3 tr) = inr "1+".
Proof.
  intros s tr.
  assert (H : _negotiate_transport (callback := nat)
                (fun _ => SocketError "refused")
                ["websocket"; "xhr-polling"] s true "example.org" tt = inr tr)
    by reflexivity.
  split; [exact H|].
  destruct (negotiated_transport_is_new (fun _ => SocketError "refused")
              ["websocket"; "xhr-polling"] s true "example.org" tt tr 3 H)
    as (_ & _ & Hurl & _ & Hfirst & _).
  split; [exact Hurl | exact Hfirst].
Defined.

(** ** [disconnect] *)

Lemma self_close_fields {callback conn : Type}
    (close : conn -> (exn + unit) * conn) (t : transport callback conn) :
  _packet_id (snd (self_close close t)) = _packet_id t
  /\ _callback_by_packet_id (snd (self_close close t))
     = _callback_by_packet_id t.
Proof. unfold self_close. by destruct (close (connection t)). Qed.

(** X14. [disconnect] leaves the counter and the registry alone, whatever
    [send] and [close] do. On a transport that is not connected it does
    nothing at all; on a connected one a non-empty path goes out in the
    packet [0::path:] and [close] is not called. *)
Theorem disconnect_keeps_callbacks {callback conn : Type}
    (send : string -> conn -> (exn + unit) * conn)
    (connected : conn -> bool) (close : conn -> (exn + unit) * conn)
    (path : string) (t : transport callback conn) :
  let t' := snd (disconnect send connected close path t) in
  _packet_id t' = _packet_id t
  /\ _callback_by_packet_id t' = _callback_by_packet_id t
  /\ (connected (connection t) = false ->
      disconnect send connected close path t = (inr tt, t))
  /\ (connected (connection t) = true -> path <> "" ->
      disconnect send connected close path t
      = self_send send ("0::" +:+ path +:+ ":") t).
Proof.
  intros t'. unfold t', disconnect.
  destruct (connected (connection t)); cbn [negb].
  - destruct path as [|a path].
    + destruct (self_close_fields close t) as [-> ->]. by repeat split.
    + destruct (send_packet_state send 0 (String a path) "" None t)
        as [-> ->].
      repeat split; try done.
      all: intros _ _; unfold send_packet, bind, ret;
        rewrite packet_text_unfold; by rewrite append_empty_r.
  - by repeat split.
Qed.

Lemma disconnect_keeps_callbacks_witness :
  let t := snd (set_ack_callback (callback := nat) 5 (init [])) in
  (fun _ : list string => true) (connection t) = true
  /\ "/chat" <> ""
  /\ connection (snd (disconnect wire_send (fun _ => true)
                        (fun c => (inr tt, c)) "/chat" t))
     = ["0::/chat:"]
  /\ _callback_by_packet_id
       (snd (disconnect wire_send (fun _ => true) (fun c => (inr tt, c))
               "/chat" t)) !! "1" = Some 5.
Proof.
  intros t.
  assert (Hc : (fun _ : list string => true) (connection t) = true)
    by reflexivity.
  assert (Hp : "/chat" <> "") by discriminate.
  destruct (disconnect_keeps_callbacks wire_send (fun _ => true)
              (fun c => (inr tt, c)) "/chat" t) as (_ & Hreg & _ & Hsend).
  split; [exact Hc|]. split; [exact Hp|].
  rewrite Hreg, (Hsend Hc Hp). split; reflexivity.
Defined.

(** X15. On a polling transport that is connected, [disconnect] without a
    path asks the server once. When the request returns with status 200 the
    transport is no longer connected, and any further [disconnect] returns
    at once without sending or asking again. When the request fails,
    [disconnect] raises what [_get_response] raises and the transport is as
    it was, still connected. *)
Theorem polling_disconnect_once {kwargs callback : Type}
    (send : string -> concrete kwargs -> (exn + unit) * concrete kwargs)
    (o o' : request_outcome) (b b' : bool) (path' : string)
    (t : transport callback (concrete kwargs)) :
  class_of (connection t) <> WebsocketTransport ->
  connected_of b (connection t) = true ->
  match _get_response o with
  | inr _ =>
      exists t',
        disconnect send (connected_of b) (close_of o) "" t = (inr tt, t')
        /\ connected_of b' (connection t') = false
        /\ disconnect send (connected_of b') (close_of o') path' t'
           = (inr tt, t')
  | inl e =>
      disconnect send (connected_of b) (close_of o) "" t = (inl e, t)
      /\ connected_of b' (connection t) = true
  end.
Proof.
  intros Hcls Hconn. destruct t as [n reg c]. cbn [connection] in *.
  unfold disconnect, self_close. cbn [connection _packet_id
    _callback_by_packet_id]. rewrite Hconn. cbn [negb].
  destruct c as [url|url conn http|url conn http jid];
    [done| |]; cbn [connected_of close_of] in *; subst conn;
    destruct (_get_response o) as [e|r]; try done;
    (eexists; split; [reflexivity|]; split; [reflexivity|]);
    unfold disconnect; cbn [connection connected_of negb]; reflexivity.
Qed.

Lemma polling_disconnect_once_witness :
  let t := init (callback := nat)
             (XHR_Polling "http://h/xhr-polling/1" true tt) in
  class_of (connection t) <> WebsocketTransport
  /\ connected_of false (connection t) = true
  /\ exists t',
       disconnect (Polling_send (Responded 200 [])) (connected_of false)
         (close_of (Responded 200 [])) "" t = (inr tt, t')
       /\ connected_of true (connection t') = false
       /\ disconnect (Polling_send (Responded 200 [])) (connected_of true)
            (close_of (Raised ByTimeout "late")) "/chat" t' = (inr tt, t').
Proof.
  intros t.
  assert (H1 : class_of (connection t) <> WebsocketTransport) by discriminate.
  assert (H2 : connected_of false (connection t) = true) by reflexivity.
  split; [exact H1|]. split; [exact H2|].
  exact (polling_disconnect_once (Polling_send (Responded 200 [])) (Responded 200 [])
           (Raised ByTimeout "late") false true "/chat" t H1 H2).
Defined.

(** ** Polling bodies *)

Lemma prefix_boundary_bytes a0 a1 a2 s :
  String.prefix BOUNDARY (String a0 (String a1 (String a2 s)))
  = Ascii.eqb (ascii_of_N 239) a0 && Ascii.eqb (ascii_of_N 191) a1
    && Ascii.eqb (ascii_of_N 189) a2.
Proof.
  rewrite BOUNDARY_bytes, !prefix_cons, prefix_empty.
  by destruct (Ascii.eqb _ a0), (Ascii.eqb _ a1), (Ascii.eqb _ a2).
Qed.

Lemma prefix_boundary_lead b s :
  (b < 256)%N -> b <> 239%N ->
  String.prefix BOUNDARY (String (ascii_of_N b) s) = false.
Proof.
  intros Hb Hne. rewrite BOUNDARY_bytes, prefix_cons.
  rewrite ascii_of_N_eqb by lia. by destruct (N.eqb_spec 239 b) as [<-|_].
Qed.

Lemma prefix_boundary_encode_char c rest :
  code_point c = true -> c <> 0xFFFD%N ->
  String.prefix BOUNDARY (utf8_encode_char c +:+ rest) = false.
Proof.
  intros Hc Hne. apply code_point_bound in Hc. unfold utf8_encode_char.
  destruct (N.ltb_spec c 0x80); [|destruct (N.ltb_spec c 0x800);
    [|destruct (N.ltb_spec c 0x10000)]]; cbn [String.append].
  - apply prefix_boundary_lead; lia.
  - apply prefix_boundary_lead; div_lia.
  - rewrite prefix_boundary_bytes, !ascii_of_N_eqb by div_lia.
    destruct (N.eqb_spec 239 (224 + c / 4096)); [|done].
    destruct (N.eqb_spec 191 (128 + (c / 64) mod 64)); [|done].
    destruct (N.eqb_spec 189 (128 + c mod 64)); [|done].
    exfalso. apply Hne. div_lia.
  - apply prefix_boundary_lead; div_lia.
Qed.

(** The encoded text starts with the marker when the text starts with
    U+FFFD. *)
Lemma prefix_boundary_encode (text : unicode) :
  forallb code_point text = true ->
  String.prefix BOUNDARY (utf8_encode text) = starts_with_marker text.
Proof.
  destruct text as [|c text]; [done|].
  cbn [forallb utf8_encode starts_with_marker].
  rewrite andb_true_iff. intros [Hc _].
  destruct (N.eqb_spec c 0xFFFD) as [->|Hne].
  - change (utf8_encode_char 65533) with BOUNDARY. rewrite BOUNDARY_bytes.
    cbn [String.append]. by rewrite !prefix_cons, !Ascii.eqb_refl, prefix_empty.
  - by apply prefix_boundary_encode_char.
Qed.

Lemma usplit_unmarked (u : unicode) :
  existsb (N.eqb 0xFFFD) u = false -> usplit 0xFFFD u = [u].
Proof.
  induction u as [|c u IH]; cbn [existsb usplit]; [done|].
  rewrite orb_false_iff. intros [Hc Hu]. rewrite (IH Hu).
  rewrite N.eqb_sym in Hc. by rewrite Hc.
Qed.

Lemma usplit_at_marker (a b : unicode) :
  existsb (N.eqb 0xFFFD) a = false ->
  usplit 0xFFFD (a ++ 0xFFFD%N :: b)%list = a :: usplit 0xFFFD b.
Proof.
  induction a as [|c a IH]; cbn [existsb usplit app]; [done|].
  rewrite orb_false_iff. intros [Hc Ha]. rewrite (IH Ha).
  rewrite N.eqb_sym in Hc. by rewrite Hc.
Qed.

Lemma xhr_recv_responded (text : unicode) :
  forallb code_point text = true ->
  let parts := usplit 0xFFFD text in
  let framed :=
    yield_texts (izip (stride2 (drop 1 parts)) (stride2 (drop 2 parts))) in
  XHR_Polling_recv (Responded 200 text)
  = (if starts_with_marker text then framed else text :: framed, None).
Proof.
  intros Htext parts framed.
  unfold XHR_Polling_recv. cbn [_get_response Z.eqb Pos.eqb].
  rewrite (prefix_boundary_encode text Htext).
  rewrite (utf8_decode_encode text Htext).
  rewrite (deframe_encoded text Htext). fold parts. fold framed.
  by destruct (starts_with_marker text).
Qed.

(** X16. What the plain polling transport yields for a response of status
    200: the whole text first, unless it starts with U+FFFD, and then every
    framed packet whose declared length matches, in order; nothing is
    raised. A text without any U+FFFD is yielded as the one packet, and so is
    the empty text. *)
Theorem xhr_recv_yields (text : unicode) :
  forallb code_point text = true ->
  let parts := usplit 0xFFFD text in
  let framed :=
    yield_texts (izip (stride2 (drop 1 parts)) (stride2 (drop 2 parts))) in
  XHR_Polling_recv (Responded 200 text)
    = (if starts_with_marker text then framed else text :: framed, None)
  /\ (if existsb (N.eqb 0xFFFD) text then True
      else XHR_Polling_recv (Responded 200 text) = ([text], None))
  /\ XHR_Polling_recv (Responded 200 []) = ([[]], None).
Proof.
  intros Htext parts framed.
  pose proof (xhr_recv_responded text Htext) as Hrecv. cbn zeta in Hrecv.
  fold parts in Hrecv. fold framed in Hrecv.
  split; [exact Hrecv|]. split; [|reflexivity].
  destruct (existsb (N.eqb 0xFFFD) text) eqn:E; [done|].
  rewrite Hrecv. unfold framed, parts. rewrite (usplit_unmarked text E).
  destruct text as [|c text']; [done|].
  cbn [existsb] in E. apply orb_false_iff in E as [E _].
  cbn [starts_with_marker]. rewrite N.eqb_sym in E. by rewrite E.
Qed.

Lemma xhr_recv_yields_witness :
  let text := ([0x31; 0x3A; 0x3A; 0xFFFD; 0x31; 0xFFFD; 0x32]%N) in
  forallb code_point text = true
  /\ XHR_Polling_recv (Responded 200 text) = ([text; [0x32%N]], None).
Proof.
  intros text. split; [reflexivity|].
  destruct (xhr_recv_yields text eq_refl) as [-> _]. vm_compute. reflexivity.
Defined.

(** X17. When the request does not come back with status 200, nothing is
    received and nothing changes: [_get_response] raises [TimeoutError] or
    [SocketIOConnectionError] and nothing else, [recv] yields no packet
    before that exception, and [send] and [close] of a polling transport
    raise it and leave the transport as it was. A response is returned only
    with the status 200. *)
Theorem request_failure_surfaces {kwargs : Type} (o : request_outcome)
    (packet_text : string) (c : concrete kwargs) :
  match _get_response o with
  | inr (status, text) => status = 200%Z /\ o = Responded 200 text
  | inl e =>
      (e = TimeoutError \/ exists msg, e = SocketIOConnectionError msg)
      /\ XHR_Polling_recv o = ([], Some e)
      /\ Polling_send o packet_text c = (inl e, c)
      /\ match c with
         | Websocket _ => True
         | _ => close_of o c = (inl e, c)
         end
  end.
Proof.
  destruct o as [status text|[| |] e];
    unfold XHR_Polling_recv, Polling_send; cbn [_get_response].
  - destruct (Z.eqb_spec status 200) as [->|Hne]; [done|].
    repeat split; [eauto|].
    destruct c; cbn [close_of _get_response]; [done| |];
      by destruct (Z.eqb_spec status 200).
  - repeat split; [eauto|]. by destruct c.
  - repeat split; [eauto|]. by destruct c.
  - repeat split; [eauto|]. by destruct c.
Qed.

(** ** Frames *)

Lemma unicode_of_str_small s :
  Forall (fun c => (c < 256)%N) (unicode_of_str s).
Proof.
  induction s as [|a s IH]; cbn [unicode_of_str]; constructor; [|done].
  apply N_ascii_bounded.
Qed.

Lemma declared_length_frameable text : frameable (declared_length text) = true.
Proof.
  unfold frameable, declared_length.
  pose proof (unicode_of_str_small (str_int (Z.of_nat (length text)))) as H.
  induction H as [|c l Hc _ IH]; [done|].
  cbn [forallb existsb]. apply andb_true_iff in IH as [IH1 IH2].
  rewrite IH1. apply negb_true_iff in IH2. rewrite IH2.
  unfold code_point. rewrite (proj2 (N.ltb_lt c _)) by lia.
  by rewrite (proj2 (N.eqb_neq 65533 c)) by lia.
Qed.

Lemma frameable_parts u :
  frameable u = true ->
  forallb code_point u = true /\ existsb (N.eqb 0xFFFD) u = false.
Proof.
  unfold frameable. rewrite andb_true_iff, negb_true_iff. tauto.
Qed.

Lemma forallb_code_point_app (u v : unicode) :
  forallb code_point (u ++ v)%list
  = forallb code_point u && forallb code_point v.
Proof. apply forallb_app. Qed.

Lemma frame_code_points texts :
  forallb frameable texts = true -> forallb code_point (frame texts) = true.
Proof.
  induction texts as [|text texts IH]; cbn [forallb frame]; [done|].
  rewrite andb_true_iff. intros [Ht Hts].
  destruct (frameable_parts _ Ht) as [Hcp _].
  destruct (frameable_parts _ (declared_length_frameable text)) as [Hd _].
  change (forallb code_point (?c :: ?l)) with (code_point c && forallb code_point l).
  rewrite forallb_code_point_app.
  change (forallb code_point (?c :: ?l)) with (code_point c && forallb code_point l).
  rewrite forallb_code_point_app, Hd, Hcp, (IH Hts). done.
Qed.

(** The fragments of a body of frames: after each text come the length and
    the text of the next frame. *)
Lemma usplit_frames (text : unicode) (texts : list unicode) :
  existsb (N.eqb 0xFFFD) text = false ->
  forallb frameable texts = true ->
  usplit 0xFFFD (text ++ frame texts)%list
  = text :: flat_map (fun x => [declared_length x; x]) texts.
Proof.
  revert text. induction texts as [|next texts IH]; intros text Ht;
    cbn [forallb frame flat_map].
  - intros _. rewrite app_nil_r. by apply usplit_unmarked.
  - rewrite andb_true_iff. intros [Hn Hts].
    destruct (frameable_parts _ Hn) as [_ Hnext].
    destruct (frameable_parts _ (declared_length_frameable next)) as [_ Hd].
    rewrite (usplit_at_marker _ _ Ht), (usplit_at_marker _ _ Hd).
    by rewrite (IH next Hnext Hts).
Qed.

Lemma izip_frames (texts : list unicode) :
  let parts := flat_map (fun x => [declared_length x; x]) texts in
  izip (stride2 parts) (stride2 (drop 1 parts))
  = map (fun x => (declared_length x, x)) texts.
Proof.
  induction texts as [|text texts IH]; [done|].
  cbn [flat_map app]. cbn zeta in *.
  change (drop 1 (?a :: ?b :: ?l)) with (b :: l).
  rewrite (stride2_tail text). cbn [stride2 izip map]. by rewrite IH.
Qed.

Lemma yield_texts_frames (texts : list unicode) :
  yield_texts (map (fun x => (declared_length x, x)) texts) = texts.
Proof.
  induction texts as [|text texts IH]; [done|].
  cbn [map yield_texts].
  assert (E : declared_length_matches (declared_length text) text = true)
    by (by apply bool_decide_eq_true_2).
  by rewrite E, IH.
Qed.

(** X18. Framing and deframing are inverse: a body made of one frame per
    packet, each frame being the marker, the length of the packet, the
    marker and the packet, deframes to exactly these packets in order,
    provided no packet holds U+FFFD. The polling transport then yields them
    and nothing else, when there is at least one. *)
Theorem frame_deframe (texts : list unicode) :
  forallb frameable texts = true ->
  _yield_text_from_framed_data (utf8_encode (frame texts)) = inr texts
  /\ match texts with
     | [] => XHR_Polling_recv (Responded 200 (frame texts)) = ([[]], None)
     | _ => XHR_Polling_recv (Responded 200 (frame texts)) = (texts, None)
     end.
Proof.
  intros Htexts.
  pose proof (frame_code_points texts Htexts) as Hcp.
  assert (Hyield : yield_texts
            (izip (stride2 (drop 1 (usplit 0xFFFD (frame texts))))
               (stride2 (drop 2 (usplit 0xFFFD (frame texts))))) = texts).
  { change (frame texts) with ([] ++ frame texts)%list.
    rewrite (usplit_frames [] texts eq_refl Htexts).
    change (drop 1 (?a :: ?l)) with l.
    change (drop 2 (?a :: ?l)) with (drop 1 l).
    rewrite (izip_frames texts). apply yield_texts_frames. }
  split.
  - rewrite (deframe_encoded _ Hcp). cbn zeta. by rewrite Hyield.
  - pose proof (xhr_recv_responded _ Hcp) as Hrecv. cbn zeta in Hrecv.
    rewrite Hyield in Hrecv. by destruct texts.
Qed.

Lemma frame_deframe_witness :
  let texts := [unicode_of_str "2::"; []; [0x20AC%N]] in
  forallb frameable texts = true
  /\ _yield_text_from_framed_data (utf8_encode (frame texts)) = inr texts.
Proof.
  intros texts. split; [reflexivity|].
  exact (proj1 (frame_deframe texts eq_refl)).
Defined.

Lemma usplit_length (u : unicode) :
  length (usplit 0xFFFD u) = S (markers u).
Proof.
  unfold markers. induction u as [|c u IH]; [done|].
  cbn [usplit count_occ].
  destruct (N.eqb_spec c 0xFFFD) as [->|Hne].
  - destruct (N.eq_dec 65533%N 65533%N); [|done]. cbn [length]. by rewrite IH.
  - destruct (N.eq_dec c 65533%N); [done|].
    pose proof (usplit_nonempty 0xFFFD u).
    by destruct (usplit 0xFFFD u).
Qed.

Lemma usplit_unmarked_parts (u : unicode) :
  Forall (fun part => existsb (N.eqb 0xFFFD) part = false) (usplit 0xFFFD u).
Proof.
  induction u as [|c u IH]; cbn [usplit]; [by repeat constructor|].
  destruct (N.eqb_spec c 0xFFFD) as [->|Hne];
    [constructor; [reflexivity | exact IH]|].
  destruct (usplit 0xFFFD u) as [|h t].
  { constructor; [|constructor]. cbn [existsb]. rewrite orb_false_r.
    apply N.eqb_neq. congruence. }
  apply Forall_cons in IH as [Hh Ht]. constructor; [|done].
  cbn [existsb]. rewrite Hh, orb_false_r. apply N.eqb_neq. congruence.
Qed.

Lemma yield_texts_sublist pairs : sublist (yield_texts pairs) (map snd pairs).
Proof.
  induction pairs as [|[l t] pairs IH]; [done|]. cbn [yield_texts map snd].
  destruct (declared_length_matches l t); by constructor.
Qed.

Lemma izip_snd_sublist {A B} (l1 : list A) (l2 : list B) :
  sublist (map snd (izip l1 l2)) l2.
Proof.
  revert l2. induction l1 as [|x l1 IH]; intros [|y l2]; cbn [izip map snd];
    try apply sublist_nil_l. by constructor.
Qed.

Lemma stride2_sublist {A} (l : list A) : sublist (stride2 l) l.
Proof.
  cut (sublist (stride2 l) l /\ forall x, sublist (stride2 (x :: l)) (x :: l));
    [tauto|].
  induction l as [|y l [IH1 IH2]]; [by split|].
  split; [apply IH2|]. intros x. cbn [stride2].
  by apply sublist_skip, sublist_cons.
Qed.

Lemma Forall_of_sublist {A} (P : A -> Prop) (l1 l2 : list A) :
  sublist l1 l2 -> Forall P l2 -> Forall P l1.
Proof.
  induction 1 as [|x l1 l2 _ IH|x l1 l2 _ IH]; intros H; [done| |].
  - apply Forall_cons in H as [Hx H]. constructor; [done | by apply IH].
  - apply Forall_cons in H as [_ H]. by apply IH.
Qed.

Lemma framed_pairs_length {A} (parts : list A) :
  2 * length (izip (stride2 (drop 1 parts)) (stride2 (drop 2 parts)))
  <= length parts - 1.
Proof.
  set (pairs := izip _ _).
  destruct (length pairs) as [|k] eqn:E; [lia|].
  destruct (lookup_lt_is_Some_2 pairs k) as [[a b] Hk]; [lia|].
  apply framed_pairs_lookup in Hk as [_ H2].
  apply lookup_lt_Some in H2. lia.
Qed.

(** X19. The deframer yields at most one packet for every two markers of
    the body, so none for a body without marker, and no packet it yields
    holds a marker. *)
Theorem deframe_bounds (body : unicode) :
  forallb code_point body = true ->
  exists texts,
    _yield_text_from_framed_data (utf8_encode body) = inr texts
    /\ 2 * length texts <= markers body
    /\ Forall (fun text => existsb (N.eqb 0xFFFD) text = false) texts.
Proof.
  intros Hbody. eexists. split; [apply (deframe_encoded body Hbody)|].
  cbn zeta. set (parts := usplit 0xFFFD body).
  set (pairs := izip _ _).
  pose proof (yield_texts_sublist pairs) as Hsub.
  split.
  - apply sublist_length in Hsub. rewrite length_map in Hsub.
    pose proof (framed_pairs_length parts) as Hlen. fold pairs in Hlen.
    unfold parts in Hlen. rewrite usplit_length in Hlen. lia.
  - assert (Hparts : sublist (yield_texts pairs) parts).
    { etrans; [exact Hsub|]. etrans; [apply izip_snd_sublist|].
      etrans; [apply stride2_sublist|]. apply sublist_drop. }
    eapply Forall_of_sublist; [exact Hparts|]. apply usplit_unmarked_parts.
Qed.

Lemma deframe_bounds_witness :
  let body := ([0xFFFD; 0x31; 0xFFFD; 0x61; 0xFFFD; 0x39; 0xFFFD; 0x62]%N) in
  forallb code_point body = true
  /\ exists texts,
       _yield_text_from_framed_data (utf8_encode body) = inr texts
       /\ 2 * length texts <= markers body
       /\ Forall (fun text => existsb (N.eqb 0xFFFD) text = false) texts.
Proof.
  intros body. split; [reflexivity|].
  exact (deframe_bounds body eq_refl).
Defined.

(** ** JSONP bodies *)

Lemma utf8_encode_app (u v : unicode) :
  utf8_encode (u ++ v)%list = utf8_encode u +:+ utf8_encode v.
Proof.
  induction u as [|c u IH]; cbn [app utf8_encode]; [done|].
  by rewrite IH, append_assoc.
Qed.

Lemma utf8_encode_ascii (s : string) :
  Forall (fun c => (c < 128)%N) (unicode_of_str s) ->
  utf8_encode (unicode_of_str s) = s.
Proof.
  induction s as [|a s IH]; cbn [unicode_of_str utf8_encode]; [done|].
  intros H. apply Forall_cons in H as [Ha Hs]. rewrite (IH Hs).
  unfold utf8_encode_char. rewrite (proj2 (N.ltb_lt _ _) Ha).
  by rewrite ascii_N_embedding.
Qed.

Lemma is_digit_small a : is_digit a = true -> (N_of_ascii a < 128)%N.
Proof.
  unfold is_digit. rewrite andb_true_iff, N.leb_le, N.leb_le. lia.
Qed.

Lemma all_digits_small s :
  all_digits s = true -> Forall (fun c => (c < 128)%N) (unicode_of_str s).
Proof.
  induction s as [|a s IH]; cbn [all_digits unicode_of_str]; [done|].
  rewrite andb_true_iff. intros [Ha Hs].
  constructor; [by apply is_digit_small | by apply IH].
Qed.

Lemma unicode_of_str_app s1 s2 :
  unicode_of_str (s1 +:+ s2) = (unicode_of_str s1 ++ unicode_of_str s2)%list.
Proof. induction s1 as [|a s1 IH]; cbn; [done | by rewrite IH]. Qed.

Lemma small_of_forallb (u : unicode) :
  forallb (fun c => c <? 128)%N u = true -> Forall (fun c => (c < 128)%N) u.
Proof.
  induction u as [|c u IH]; cbn [forallb]; [done|].
  rewrite andb_true_iff, N.ltb_lt. intros [Hc Hu]. constructor; auto.
Qed.

Lemma small_code_points (u : unicode) :
  Forall (fun c => (c < 128)%N) u ->
  forallb code_point u = true /\ existsb (N.eqb 0xFFFD) u = false.
Proof.
  induction 1 as [|c u Hc _ [IH1 IH2]]; [done|].
  cbn [forallb existsb]. rewrite IH1, IH2. unfold code_point.
  rewrite (proj2 (N.ltb_lt c _)) by lia.
  by rewrite (proj2 (N.eqb_neq 65533 c)) by lia.
Qed.

Lemma jsonp_body_encoded digits (payload : unicode) :
  all_digits digits = true ->
  utf8_encode (jsonp_body digits payload)
  = "io.j[" +:+ digits +:+ "](" +:+ dquote
      +:+ utf8_encode payload +:+ dquote +:+ ");".
Proof.
  intros Hd. unfold jsonp_body. rewrite !utf8_encode_app.
  rewrite (utf8_encode_ascii (dquote +:+ ");"))
    by (by apply small_of_forallb).
  rewrite utf8_encode_ascii; [by rewrite !append_assoc|].
  rewrite !unicode_of_str_app.
  apply Forall_app_2; [by apply small_of_forallb|].
  apply Forall_app_2; [by apply all_digits_small|by apply small_of_forallb].
Qed.

Lemma leading_digits_app ds a rest :
  all_digits ds = true -> is_digit a = false ->
  leading_digits (ds +:+ String a rest) = (ds, String a rest).
Proof.
  intros Hds Ha. induction ds as [|d ds IH]; cbn [String.append leading_digits].
  - by rewrite Ha.
  - cbn [all_digits] in Hds. apply andb_true_iff in Hds as [Hd Hds].
    by rewrite Hd, (IH Hds).
Qed.

Lemma payload_group_closed g :
  has_char (ascii_of_N 10) g = false ->
  payload_group (g +:+ dquote +:+ ");") = Some g.
Proof.
  induction g as [|a g IH]; [reflexivity|].
  rewrite has_char_cons. destruct (Ascii.eqb a (ascii_of_N 10)) eqn:E; [done|].
  intros Hg. change (String a g +:+ ?r) with (String a (g +:+ r)).
  cbn [payload_group]. by rewrite E, (IH Hg).
Qed.

Lemma utf8_encode_no_newline (u : unicode) :
  forallb code_point u = true ->
  existsb (N.eqb 10) u = false ->
  has_char (ascii_of_N 10) (utf8_encode u) = false.
Proof.
  induction u as [|c u IH]; cbn [forallb existsb utf8_encode]; [done|].
  rewrite andb_true_iff, orb_false_iff. intros [Hc Hu] [Hn Hnu].
  rewrite has_char_app, (IH Hu Hnu), orb_false_r.
  apply code_point_bound in Hc. apply N.eqb_neq in Hn.
  unfold utf8_encode_char.
  destruct (N.ltb_spec c 0x80); [|destruct (N.ltb_spec c 0x800);
    [|destruct (N.ltb_spec c 0x10000)]]; cbn [has_char];
    rewrite !ascii_of_N_eqb by div_lia;
    repeat match goal with
      | |- context [N.eqb ?a 10] =>
          rewrite (proj2 (N.eqb_neq a 10)) by div_lia
      end; done.
Qed.

Lemma jsonp_body_code_points digits (payload : unicode) :
  all_digits digits = true ->
  forallb code_point payload = true ->
  forallb code_point (jsonp_body digits payload) = true.
Proof.
  intros Hd Hp. unfold jsonp_body. rewrite !forallb_app, Hp.
  rewrite !unicode_of_str_app, !forallb_app.
  destruct (small_code_points _ (all_digits_small _ Hd)) as [-> _]. done.
Qed.

Lemma jsonp_body_unmarked digits (payload : unicode) :
  all_digits digits = true ->
  existsb (N.eqb 0xFFFD) payload = false ->
  existsb (N.eqb 0xFFFD) (jsonp_body digits payload) = false.
Proof.
  intros Hd Hp. unfold jsonp_body. rewrite !existsb_app, Hp.
  rewrite !unicode_of_str_app, !existsb_app.
  destruct (small_code_points _ (all_digits_small _ Hd)) as [_ ->].
  done.
Qed.

(** X20. A JSONP response of status 200 whose text is [io.j], digits in
    brackets, and a payload without newline between double quotes in
    parentheses, closed by a semicolon, is received as that payload,
    followed by the framed packets found in the whole text; [_jsonp_id]
    becomes the digits. Without U+FFFD in the payload the payload is the one
    packet. *)
Theorem jsonp_recv_payload (d : ascii) (digits : string) (payload : unicode) :
  all_digits (String d digits) = true ->
  forallb code_point payload = true ->
  existsb (N.eqb 10) payload = false ->
  let body := jsonp_body (String d digits) payload in
  let parts := usplit 0xFFFD body in
  let framed :=
    yield_texts (izip (stride2 (drop 1 parts)) (stride2 (drop 2 parts))) in
  JSONP_Polling_recv (Responded 200 body)
    = (payload :: framed, Some (String d digits), None)
  /\ (if existsb (N.eqb 0xFFFD) payload then True
      else JSONP_Polling_recv (Responded 200 body)
           = ([payload], Some (String d digits), None)).
Proof.
  intros Hd Hp Hnl body parts framed.
  pose proof (jsonp_body_code_points _ _ Hd Hp) as Hcp.
  assert (Hrecv : JSONP_Polling_recv (Responded 200 body)
            = (payload :: framed, Some (String d digits), None)).
  { unfold JSONP_Polling_recv. cbn [_get_response Z.eqb Pos.eqb].
    rewrite (deframe_encoded body Hcp). fold parts. fold framed.
    unfold body at 1 2. rewrite (jsonp_body_encoded _ payload Hd).
    set (tail := "](" +:+ dquote +:+ utf8_encode payload +:+ dquote +:+ ");").
    assert (Hpre : String.prefix BOUNDARY ("io.j[" +:+ String d digits +:+ tail)
                   = false).
    { rewrite BOUNDARY_bytes. cbn [String.append]. by rewrite prefix_cons. }
    rewrite Hpre. cbn [negb].
    assert (Hm : DATA_PATTERN_match ("io.j[" +:+ String d digits +:+ tail)
                 = Some (String d digits, utf8_encode payload)).
    { cbn [String.append DATA_PATTERN_match]. cbn [Ascii.eqb Bool.eqb andb negb
        ascii_of_N ascii_of_pos].
      change (String d (digits +:+ tail)) with (String d digits +:+ tail).
      unfold tail. change ("](" +:+ ?r) with (String "]" (String "(" r)).
      rewrite (leading_digits_app (String d digits) "]" _ Hd eq_refl).
      change (dquote +:+ ?r) with (String (ascii_of_N 34) r).
      rewrite !Ascii.eqb_refl. cbn [andb].
      change (String (ascii_of_N 34) ");") with (dquote +:+ ");").
      by rewrite (payload_group_closed _ (utf8_encode_no_newline _ Hp Hnl)). }
    rewrite Hm. by rewrite (utf8_decode_encode payload Hp). }
  split; [exact Hrecv|].
  destruct (existsb (N.eqb 0xFFFD) payload) eqn:E; [done|].
  rewrite Hrecv. unfold framed, parts, body.
  by rewrite (usplit_unmarked _ (jsonp_body_unmarked _ _ Hd E)).
Qed.

Lemma jsonp_recv_payload_witness :
  let payload := unicode_of_str "5:::{}" in
  all_digits "17" = true
  /\ forallb code_point payload = true
  /\ existsb (N.eqb 10) payload = false
  /\ JSONP_Polling_recv (Responded 200 (jsonp_body "17" payload))
     = ([payload], Some "17", None).
Proof.
  intros payload.
  split; [reflexivity|]. split; [reflexivity|]. split; [reflexivity|].
  exact (proj2 (jsonp_recv_payload "1" "7" payload eq_refl eq_refl eq_refl)).
Defined.

Lemma DATA_PATTERN_needs_i s :
  match s with
  | String a _ => Ascii.eqb a "i" = false
  | EmptyString => True
  end ->
  DATA_PATTERN_match s = None.
Proof.
  destruct s as [|a0 [|a1 [|a2 [|a3 [|a4 s]]]]]; try done.
  intros H. cbn [DATA_PATTERN_match]. by rewrite H.
Qed.

(** X21. A JSONP response of status 200 whose text is empty, or starts with
    a character that is neither [i] nor U+FFFD, is no packet: [recv] yields
    nothing, leaves [_jsonp_id] alone and ends with the [AttributeError] of
    the failed match. *)
Theorem jsonp_recv_rejects (text : unicode) :
  forallb code_point text = true ->
  match text with
  | c :: _ => c <> 0x69%N /\ c <> 0xFFFD%N
  | [] => True
  end ->
  JSONP_Polling_recv (Responded 200 text)
  = ([], None, Some RaisesAttributeError).
Proof.
  intros Hcp Hc. unfold JSONP_Polling_recv. cbn [_get_response Z.eqb Pos.eqb].
  rewrite (prefix_boundary_encode text Hcp).
  destruct text as [|c text]; [reflexivity|]. destruct Hc as [Hi Hm].
  cbn [starts_with_marker]. rewrite (proj2 (N.eqb_neq c _) Hm). cbn [negb].
  rewrite DATA_PATTERN_needs_i; [done|].
  cbn [forallb] in Hcp. apply andb_true_iff in Hcp as [Hcp _].
  apply code_point_bound in Hcp. cbn [utf8_encode]. unfold utf8_encode_char.
  destruct (N.ltb_spec c 0x80); [|destruct (N.ltb_spec c 0x800);
    [|destruct (N.ltb_spec c 0x10000)]]; cbn [String.append];
    change "i"%char with (ascii_of_N 105);
    rewrite ascii_of_N_eqb by div_lia; apply N.eqb_neq; div_lia.
Qed.

Lemma jsonp_recv_rejects_witness :
  forallb code_point (unicode_of_str "2::") = true
  /\ JSONP_Polling_recv (Responded 200 (unicode_of_str "2::"))
     = ([], None, Some RaisesAttributeError)
  /\ JSONP_Polling_recv (Responded 200 []) = ([], None, Some RaisesAttributeError).
Proof.
  split; [reflexivity|]. split.
  - apply (jsonp_recv_rejects (unicode_of_str "2::") eq_refl).
    split; discriminate.
  - exact (jsonp_recv_rejects [] eq_refl I).
Defined.
